(** * One-way synchronisation of a local folder with a Yandex Disk folder

    A shallow embedding of [src/yandex_cloud.py] (the client of the remote
    store) and of [src/main.py] (the synchronisation cycle, its error
    handler and the scheduler loop), followed by the properties of the
    cycle and of the client.

    Conventions of the embedding.
    - A time stamp is a Python [float] holding seconds since the epoch.  The
      program only compares time stamps ([>]) and tests them for truth
      ([not file_cloud]); both depend only on the order of the values and on
      which value is zero, so a time stamp is an integer here, [0] standing
      for [0.0].
    - The network and the local folder are the environment: a transport
      function [send] over an arbitrary type of worlds answers each request,
      and a snapshot [fs] lists the entries of the local folder.
    - Code runs in a state and error monad; the state holds the world, the
      requests sent so far and the lines written to the log. *)

From stdpp Require Import base option list strings gmap.
From Stdlib Require Import ZArith Lia.

Local Open Scope string_scope.
Local Open Scope list_scope.
Local Open Scope Z_scope.

(** ** Data *)

Definition timestamp : Type := Z.

(** Modelled from the spec: the module [cloud_exceptions], which declares
    [TokenException] and [CloudException], is not among the sources; they
    are the spec's auth error and store error.  [CloudException] carries
    the argument it was built with, which is the value of a JSON field
    ([None] when the field is absent) or a formatted string.
    [ConnectionError] is the one of [requests]; [OSError] stands for the
    failure to open or stat a local file. *)
Inductive exn : Type :=
| ConnectionError
| TokenException
| CloudException (arg : option string)
| OSError.

Inductive result (A : Type) : Type :=
| Ok (a : A)
| Raise (e : exn).
Arguments Ok {A} a.
Arguments Raise {A} e.

(** *** HTTP *)

Inductive http_method : Type := GET | PUT | DELETE.

(** A request of [requests]: the method, the URL, the [headers=] argument
    when one is passed, and the path of the file opened and passed as
    [files={'file': file}] when there is one. *)
Record request : Type := Request {
  r_method : http_method;
  r_url : string;
  r_headers : option (list (string * string));
  r_files : option string
}.

(** One element of [_embedded.items]: [name], and [modified] as the instant
    its ISO-8601 text denotes ([dt.fromisoformat(..).timestamp()]). *)
Record item : Type := Item {
  item_name : string;
  item_modified : timestamp
}.

(** A response: its status code and the fields of its JSON body that the
    client reads: [.get('message')], ['href'] and ['_embedded']['items']. *)
Record response : Type := Response {
  status_code : Z;
  message : option string;
  href : string;
  items : list item
}.

(** What the transport yields for a request: a response, or no connection
    ([requests] raises [ConnectionError]). *)
Inductive outcome : Type :=
| Answer (r : response)
| NoConnection.

Global Instance http_method_eq_dec : EqDecision http_method.
Proof. solve_decision. Defined.
Global Instance request_eq_dec : EqDecision request.
Proof. solve_decision. Defined.
Global Instance exn_eq_dec : EqDecision exn.
Proof. solve_decision. Defined.
Global Instance item_eq_dec : EqDecision item.
Proof. solve_decision. Defined.
Global Instance response_eq_dec : EqDecision response.
Proof. solve_decision. Defined.

(** *** The local folder *)

(** An entry of the local folder as the cycle sees it: the name
    [os.listdir] yields, the value of [os.path.getmtime], and whether
    [open(.., "rb")] succeeds (it does not on a sub-folder or an unreadable
    file). *)
Record entry : Type := Entry {
  name : string;
  mtime : timestamp;
  opens : bool
}.

Global Instance entry_eq_dec : EqDecision entry.
Proof. solve_decision. Defined.

Definition directory : Type := list entry.

Definition names (fs : directory) : list string := name <$> fs.

Fixpoint stat (file : string) (fs : directory) : option entry :=
  match fs with
  | [] => None
  | e :: fs' => if decide (name e = file) then Some e else stat file fs'
  end.

(** *** Python dictionaries from names to time stamps

    Keys are unique and keep their insertion order. *)

Definition dict : Type := list (string * timestamp).

Fixpoint dict_get (k : string) (d : dict) : option timestamp :=
  match d with
  | [] => None
  | (k', v) :: d' => if decide (k' = k) then Some v else dict_get k d'
  end.

(** [k in d] *)
Definition dict_in (k : string) (d : dict) : bool :=
  match dict_get k d with Some _ => true | None => false end.

(** [d[k] = v] *)
Fixpoint dict_set (k : string) (v : timestamp) (d : dict) : dict :=
  match d with
  | [] => [(k, v)]
  | (k', v') :: d' =>
      if decide (k' = k) then (k, v) :: d' else (k', v') :: dict_set k v d'
  end.

(** The dictionary left by [d.pop(k)]. *)
Fixpoint dict_pop (k : string) (d : dict) : dict :=
  match d with
  | [] => []
  | (k', v) :: d' => if decide (k' = k) then d' else (k', v) :: dict_pop k d'
  end.

(** [d.keys()] *)
Definition dict_keys (d : dict) : list string := d.*1.

(** Truth value of a [float | None]: [None] and [0.0] are false. *)
Definition truthy (x : option timestamp) : bool :=
  match x with
  | None => false
  | Some v => negb (v =? 0)
  end.

(** *** The log *)

(** The messages of the program, by the statement that writes them. *)
Inductive log_message : Type :=
| FileSaved (file : string)          (* "Файл {file}, был сохранен." *)
| FileRewritten (file : string)      (* "Файл {file}, был перезаписан." *)
| FileDeleted (file : string)        (* "Файл {filename}, был удален из облака." *)
| Summary (download_files rewrite_files deleted_files : nat)
    (* "Загружено: {..}, Перезаписано: {..}, Удалено: {..}" *)
| Started                            (* "Запущен процесс синхронизации..." *)
| NoNetwork                          (* "Нет соединения, проверьте подключение к сети." *)
| BadToken                           (* "Ошибка авторизации, проверьте ваш Токен." *)
| CloudFailure (arg : option string). (* the text of the CloudException *)

Inductive log_line : Type :=
| Info (m : log_message)
| Error (m : log_message).

Global Instance log_message_eq_dec : EqDecision log_message.
Proof. solve_decision. Defined.
Global Instance log_line_eq_dec : EqDecision log_line.
Proof. solve_decision. Defined.

(** [str(x)] inside an f-string, for the value of [.get('message')]. *)
Definition fmt (x : option string) : string :=
  match x with Some s => s | None => "None" end.

(** ** The state and error monad *)

Record state (W : Type) : Type := State {
  world : W;
  sent : list request;
  journal : list log_line
}.
Arguments State {W} world sent journal.
Arguments world {W} s.
Arguments sent {W} s.
Arguments journal {W} s.

Definition initial {W : Type} (w : W) : state W := State w [] [].

Definition M (W A : Type) : Type := state W → result A * state W.

Definition ret {W A} (a : A) : M W A := λ s, (Ok a, s).

Definition raise {W A} (e : exn) : M W A := λ s, (Raise e, s).

Definition bind {W A B} (m : M W A) (k : A → M W B) : M W B :=
  λ s, match m s with
       | (Ok a, s') => k a s'
       | (Raise e, s') => (Raise e, s')
       end.

Notation "x <- m ;; k" := (bind m (λ x, k))
  (at level 20, m at level 99, k at level 200, only parsing).
Notation "' x <- m ;; k" := (bind m (λ x, k))
  (at level 20, x pattern, m at level 99, k at level 200, only parsing).
Notation "m ;; k" := (bind m (λ _, k))
  (at level 100, k at level 200, right associativity, only parsing).

(** ** The client: [yandex_cloud.py] *)

Record YandexCloud : Type := {
  name_folder_cloud : string;
  headers : list (string * string)
}.

(** [YandexCloud.__init__] *)
Definition YandexCloud_init (token name_folder_cloud : string) : YandexCloud :=
  {| name_folder_cloud := name_folder_cloud;
     headers := [("Content-type", "application/json");
                 ("Accept", "application/json");
                 ("Authorization", "OAuth " +:+ token)] |}.

(** The class attribute [url]. *)
Definition url : string := "https://cloud-api.yandex.net/v1/disk/resources".

(** The URLs of the client, by the f-string that builds them. *)
Definition load_url (self : YandexCloud) (file_name : string) : string :=
  url +:+ "/upload?path=" +:+ name_folder_cloud self +:+ "/" +:+ file_name
      +:+ "&overwrite=False".

Definition reload_url (self : YandexCloud) (file_name : string) : string :=
  url +:+ "/upload?path=" +:+ name_folder_cloud self +:+ "/" +:+ file_name
      +:+ "&overwrite=True".

Definition delete_url (self : YandexCloud) (filename : string) : string :=
  url +:+ "?path=" +:+ name_folder_cloud self +:+ "/" +:+ filename
      +:+ "&force_async=False&permanently=False".

Definition get_info_url (self : YandexCloud) : string :=
  url +:+ "?path=" +:+ name_folder_cloud self +:+ "&fields=items&limit=10000".

Definition create_folder_url (self : YandexCloud) : string :=
  url +:+ "?path=" +:+ name_folder_cloud self.

Definition check_exists_url (self : YandexCloud) : string :=
  url +:+ "?path=" +:+ name_folder_cloud self +:+ "&limit=1".

(** The requests these URLs are sent in. *)
Definition load_request (self : YandexCloud) (file_name : string) : request :=
  Request GET (load_url self file_name) (Some (headers self)) None.

Definition reload_request (self : YandexCloud) (file_name : string) : request :=
  Request GET (reload_url self file_name) (Some (headers self)) None.

Definition put_file_request (href path file_name : string) : request :=
  Request PUT href None (Some (path +:+ "/" +:+ file_name)).

Definition delete_request (self : YandexCloud) (filename : string) : request :=
  Request DELETE (delete_url self filename) (Some (headers self)) None.

Definition get_info_request (self : YandexCloud) : request :=
  Request GET (get_info_url self) (Some (headers self)) None.

Definition create_folder_request (self : YandexCloud) : request :=
  Request PUT (create_folder_url self) (Some (headers self)) None.

Definition check_exists_request (self : YandexCloud) : request :=
  Request GET (check_exists_url self) (Some (headers self)) None.

(** The loop of [get_info]: [files[item.get("name")] = ...] for each item. *)
Fixpoint collect (its : list item) (files : dict) : dict :=
  match its with
  | [] => files
  | it :: its' => collect its' (dict_set (item_name it) (item_modified it) files)
  end.

Section Program.
Context {W : Type}.
(** The transport: the answer to a request in a world, and the world after. *)
Variable send : request → W → outcome * W.
(** The local folder at [path_on_pc]. *)
Variable fs : directory.

(** A call of [requests]: the request goes out, the world answers. *)
Definition requests (q : request) : M W response :=
  λ s, let '(o, w') := send q (world s) in
       let s' := State w' (sent s ++ [q]) (journal s) in
       match o with
       | Answer r => (Ok r, s')
       | NoConnection => (Raise ConnectionError, s')
       end.

(** [requests.get(url, headers=..)], [requests.put(url, headers=..)],
    [requests.delete(url, headers=..)] and
    [requests.put(url, files={'file': file})]. *)
Definition requests_get (u : string) (h : list (string * string)) : M W response :=
  requests (Request GET u (Some h) None).

Definition requests_put (u : string) (h : list (string * string)) : M W response :=
  requests (Request PUT u (Some h) None).

Definition requests_delete (u : string) (h : list (string * string)) : M W response :=
  requests (Request DELETE u (Some h) None).

Definition requests_put_files (u : string) (file : string) : M W response :=
  requests (Request PUT u None (Some file)).

Definition logger_info (m : log_message) : M W unit :=
  λ s, (Ok tt, State (world s) (sent s) (journal s ++ [Info m])).

Definition logger_error (m : log_message) : M W unit :=
  λ s, (Ok tt, State (world s) (sent s) (journal s ++ [Error m])).

(** [open(f"{path}/{file_name}", "rb")] *)
Definition open_rb (file_name : string) : M W unit :=
  match stat file_name fs with
  | Some e => if opens e then ret tt else raise OSError
  | None => raise OSError
  end.

(** [os.path.getmtime(f"{path_on_pc}/{file}")] *)
Definition getmtime (file : string) : M W timestamp :=
  match stat file fs with
  | Some e => ret (mtime e)
  | None => raise OSError
  end.

(** [YandexCloud.__save] *)
Definition save (self : YandexCloud) (u path file_name : string) : M W unit :=
  response <- requests_get u (headers self) ;;
  if decide (status_code response = 200) then
    open_rb file_name ;;
    requests_put_files (href response) (path +:+ "/" +:+ file_name) ;;
    ret tt
  else
    raise (CloudException
             (Some ("Файл: " +:+ file_name +:+ ", Ошибка: "
                      +:+ fmt (message response)))).

Definition load (self : YandexCloud) (path file_name : string) : M W unit :=
  save self (load_url self file_name) path file_name.

Definition reload (self : YandexCloud) (path file_name : string) : M W unit :=
  save self (reload_url self file_name) path file_name.

Definition delete (self : YandexCloud) (filename : string) : M W unit :=
  response <- requests_delete (delete_url self filename) (headers self) ;;
  if decide (status_code response ≠ 204) then
    raise (CloudException
             (Some ("Файл: " +:+ filename +:+ ", Ошибка: "
                      +:+ fmt (message response))))
  else ret tt.

Definition get_info (self : YandexCloud) : M W dict :=
  response <- requests_get (get_info_url self) (headers self) ;;
  if decide (status_code response = 200) then
    ret (collect (items response) [])
  else if decide (status_code response = 401) then
    raise TokenException
  else
    raise (CloudException (message response)).

(** [YandexCloud.__create_folder_cloud] *)
Definition create_folder_cloud (self : YandexCloud) : M W unit :=
  response <- requests_put (create_folder_url self) (headers self) ;;
  if decide (status_code response ≠ 201) then
    raise (CloudException (Some ("Ошибка: " +:+ fmt (message response))))
  else ret tt.

Definition check_exists_folder_cloud (self : YandexCloud) : M W unit :=
  response <- requests_get (check_exists_url self) (headers self) ;;
  if decide (status_code response = 404) then create_folder_cloud self
  else ret tt.

(** ** The cycle: [main.py] *)

(** [file_cloud] and the dictionary after
    [files_cloud.pop(file) if file in files_cloud else None]. *)
Definition pop_or_none (file : string) (files_cloud : dict)
  : option timestamp * dict :=
  if dict_in file files_cloud
  then (dict_get file files_cloud, dict_pop file files_cloud)
  else (None, files_cloud).

(** [modified > file_cloud], evaluated only when [file_cloud] is true. *)
Definition newer (modified : timestamp) (file_cloud : option timestamp) : bool :=
  match file_cloud with
  | Some v => v <? modified
  | None => false
  end.

(** The loop over [os.listdir(path_on_pc)]. *)
Fixpoint for_files (path_on_pc : string) (cloud : YandexCloud)
    (listing : list string) (files_cloud : dict)
    (download_files rewrite_files : nat) : M W (dict * nat * nat) :=
  match listing with
  | [] => ret (files_cloud, download_files, rewrite_files)
  | file :: rest =>
      modified <- getmtime file ;;
      let '(file_cloud, files_cloud) := pop_or_none file files_cloud in
      if negb (truthy file_cloud) then
        load cloud path_on_pc file ;;
        logger_info (FileSaved file) ;;
        for_files path_on_pc cloud rest files_cloud
          (download_files + 1)%nat rewrite_files
      else if truthy file_cloud && newer modified file_cloud then
        reload cloud path_on_pc file ;;
        logger_info (FileRewritten file) ;;
        for_files path_on_pc cloud rest files_cloud
          download_files (rewrite_files + 1)%nat
      else
        for_files path_on_pc cloud rest files_cloud
          download_files rewrite_files
  end.

(** The loop over [files_cloud.keys()]. *)
Fixpoint for_keys (cloud : YandexCloud) (keys : list string)
    (deleted_files : nat) : M W nat :=
  match keys with
  | [] => ret deleted_files
  | filename :: rest =>
      delete cloud filename ;;
      logger_info (FileDeleted filename) ;;
      for_keys cloud rest (deleted_files + 1)%nat
  end.

(** The function [synchronization] under its decorator. *)
Definition synchronization_body (path_on_pc : string) (cloud : YandexCloud)
  : M W unit :=
  files_cloud <- get_info cloud ;;
  '(files_cloud, download_files, rewrite_files) <-
      for_files path_on_pc cloud (names fs) files_cloud 0%nat 0%nat ;;
  deleted_files <-
      (if decide (0 < length files_cloud)%nat
       then for_keys cloud (dict_keys files_cloud) 0%nat
       else ret 0%nat) ;;
  logger_info (Summary download_files rewrite_files deleted_files).

(** [exception_decorator]: the wrapper drops the result of [func] and
    returns [None] after each of the three handled exceptions; any other
    exception passes through. *)
Definition exception_decorator {A} (func : M W A) : M W unit :=
  λ s, match func s with
       | (Ok _, s') => (Ok tt, s')
       | (Raise ConnectionError, s') => logger_error NoNetwork s'
       | (Raise TokenException, s') => logger_error BadToken s'
       | (Raise (CloudException arg), s') => logger_error (CloudFailure arg) s'
       | (Raise e, s') => (Raise e, s')
       end.

(** [synchronization], as [main] calls it. *)
Definition synchronization (path_on_pc : string) (cloud : YandexCloud)
  : M W unit :=
  exception_decorator (synchronization_body path_on_pc cloud).

(** The first [n] rounds of the [while True] loop of [main];
    [time.sleep] changes nothing that is observed here. *)
Fixpoint main_loop (n : nat) (path_to_folder_on_pc : string)
    (yandex : YandexCloud) : M W unit :=
  match n with
  | O => ret tt
  | S n' =>
      logger_info Started ;;
      synchronization path_to_folder_on_pc yandex ;;
      main_loop n' path_to_folder_on_pc yandex
  end.

End Program.

(** ** A reference remote store

    The service behind the client is not part of the program.  The
    properties of the cycle that speak of the remote folder are stated
    against any transport that keeps the contract [faithful_store] below;
    [disk_send] is one such transport, a small model of the service that
    answers the requests of the client the way the API documents them. *)

Fixpoint strip_prefix (p s : string) : option string :=
  match p, s with
  | EmptyString, _ => Some s
  | String a p', String b s' =>
      if decide (a = b) then strip_prefix p' s' else None
  | String _ _, EmptyString => None
  end.

Fixpoint strip_suffix (suf s : string) : option string :=
  match s with
  | EmptyString => if decide (suf = EmptyString) then Some EmptyString else None
  | String a s' =>
      if decide (String a s' = suf) then Some EmptyString
      else String a <$> strip_suffix suf s'
  end.

(** The text between a prefix and a suffix. *)
Definition between (p suf s : string) : option string :=
  strip_prefix p s ≫= strip_suffix suf.

Record disk : Type := Disk {
  disk_folder : option (gmap string timestamp); (* the files of the folder, [None] before it is created *)
  disk_pending : option string                  (* the file the last upload link is for *)
}.

Definition disk_files (d : disk) : gmap string timestamp :=
  default ∅ (disk_folder d).

Definition reply (code : Z) (msg : option string) : response :=
  Response code msg "" [].

Definition authorised (token : string) (q : request) : bool :=
  match r_headers q with
  | Some h => bool_decide (("Authorization", "OAuth " +:+ token) ∈ h)
  | None => false
  end.

Definition disk_items (d : disk) : list item :=
  (λ kv, Item kv.1 kv.2) <$> map_to_list (disk_files d).

Definition upload_link : string := "https://uploader.yandex.net/upload-target/".

(** The answer to a request for an upload link for [file]. *)
Definition disk_link (file : string) (overwrite : bool) (d : disk) : outcome * disk :=
  match disk_folder d with
  | None => (Answer (reply 409 (Some "Specified path does not exist.")), d)
  | Some f =>
      if bool_decide (is_Some (f !! file)) && negb overwrite
      then (Answer (reply 409 (Some "Resource already exists.")), d)
      else (Answer (Response 200 None (upload_link +:+ file) []),
            Disk (Some f) (Some file))
  end.

(** The answer to the transfer itself: the file is stored under the date
    [clock], unless the disk is full. *)
Definition disk_store (clock : timestamp) (full : bool) (u : string) (d : disk)
  : outcome * disk :=
  match disk_pending d, disk_folder d with
  | Some file, Some f =>
      if bool_decide (u = upload_link +:+ file) then
        if full
        then (Answer (reply 507 (Some "Insufficient Storage")), Disk (Some f) None)
        else (Answer (reply 201 None), Disk (Some (<[file := clock]> f)) None)
      else (Answer (reply 404 None), d)
  | _, _ => (Answer (reply 404 None), d)
  end.

Definition disk_delete (file : string) (d : disk) : outcome * disk :=
  match disk_folder d with
  | Some f =>
      if bool_decide (is_Some (f !! file))
      then (Answer (reply 204 None),
            Disk (Some (base.delete file f)) (disk_pending d))
      else (Answer (reply 404 (Some "Resource not found.")), d)
  | None => (Answer (reply 404 (Some "Resource not found.")), d)
  end.

Definition disk_list (d : disk) : outcome * disk :=
  match disk_folder d with
  | Some f => (Answer (Response 200 None "" (disk_items d)), d)
  | None => (Answer (reply 404 (Some "Resource not found.")), d)
  end.

Definition disk_create (d : disk) : outcome * disk :=
  match disk_folder d with
  | Some f => (Answer (reply 409 (Some "Resource already exists.")), d)
  | None => (Answer (reply 201 None), Disk (Some ∅) (disk_pending d))
  end.

(** The service that holds the folder [folder], accepts the token [token],
    dates what it stores [clock] and has no room left when [full]. *)
Definition disk_send (token folder : string) (clock : timestamp) (full : bool)
    (q : request) (d : disk) : outcome * disk :=
  match r_files q with
  | Some _ =>
      match r_method q with
      | PUT => disk_store clock full (r_url q) d
      | _ => (Answer (reply 405 (Some "Method Not Allowed")), d)
      end
  | None =>
      if negb (authorised token q) then (Answer (reply 401 (Some "Unauthorized")), d)
      else
        let link := url +:+ "/upload?path=" +:+ folder +:+ "/" in
        let here := url +:+ "?path=" +:+ folder in
        match r_method q with
        | GET =>
            if bool_decide (r_url q = here +:+ "&fields=items&limit=10000")
            then disk_list d
            else if bool_decide (r_url q = here +:+ "&limit=1")
            then (Answer (reply (if disk_folder d is Some _ then 200 else 404) None), d)
            else
              match between link "&overwrite=False" (r_url q),
                    between link "&overwrite=True" (r_url q) with
              | Some file, _ => disk_link file false d
              | None, Some file => disk_link file true d
              | None, None => (Answer (reply 400 (Some "Bad Request")), d)
              end
        | PUT =>
            if bool_decide (r_url q = here) then disk_create d
            else (Answer (reply 400 (Some "Bad Request")), d)
        | DELETE =>
            match between (here +:+ "/") "&force_async=False&permanently=False"
                    (r_url q) with
            | Some file => disk_delete file d
            | None => (Answer (reply 400 (Some "Bad Request")), d)
            end
        end
  end.

(** A transport that replays a fixed list of outcomes, whatever is asked;
    with the script exhausted there is no connection. *)
Definition script_send (q : request) (w : list outcome) : outcome * list outcome :=
  match w with
  | o :: w' => (o, w')
  | [] => (NoConnection, [])
  end.

(** ** The properties, as predicates *)

(** The remote folder [remote] mirrors the local folder [fs]: every local
    entry has a remote copy that is not older, and every remote name is a
    local name. *)
Definition mirrors (fs : directory) (remote : gmap string timestamp) : Prop :=
  (∀ e, e ∈ fs → ∃ t, remote !! name e = Some t ∧ mtime e ≤ t) ∧
  (∀ n, is_Some (remote !! n) → n ∈ names fs).

(** What a remote store owes the cycle, for a transport [send] whose worlds
    hold the folder [content w]:
    - a listing answered with 200 shows the whole folder and leaves it as
      it is;
    - an upload whose link request is answered with 200 and whose transfer
      is answered stores the file under a time stamp that is not before the
      local date of the file, and touches no other file;
    - a deletion answered with 204 removes that file and no other. *)
Record faithful_store {W : Type} (send : request → W → outcome * W)
    (content : W → gmap string timestamp)
    (fs : directory) (path : string) (cloud : YandexCloud) : Prop := {
  store_lists : ∀ w r w',
    send (get_info_request cloud) w = (Answer r, w') →
    status_code r = 200 →
    content w' = content w ∧
    ∀ n, dict_get n (collect (items r) []) = content w !! n;
  store_uploads : ∀ w e q r w1 o w2,
    e ∈ fs →
    q ∈ [load_request cloud (name e); reload_request cloud (name e)] →
    send q w = (Answer r, w1) →
    status_code r = 200 →
    send (put_file_request (href r) path (name e)) w1 = (Answer o, w2) →
    ∃ t, mtime e ≤ t ∧ content w2 = <[name e := t]> (content w);
  store_deletes : ∀ w n r w',
    send (delete_request cloud n) w = (Answer r, w') →
    status_code r = 204 →
    content w' = base.delete n (content w)
}.

(** The value of the query parameter [key] of a URL: the text after the
    first [key=] that follows a [?] or a [&], up to the next [&]. *)
Definition amp : Ascii.ascii := Ascii.ascii_of_nat 38.
Definition qmark : Ascii.ascii := Ascii.ascii_of_nat 63.

Fixpoint upto_amp (s : string) : string :=
  match s with
  | EmptyString => EmptyString
  | String a s' => if decide (a = amp) then EmptyString else String a (upto_amp s')
  end.

Fixpoint query_value (key s : string) : option string :=
  match s with
  | EmptyString => None
  | String a s' =>
      if decide (a = qmark ∨ a = amp) then
        match strip_prefix (key +:+ "=") s' with
        | Some v => Some (upto_amp v)
        | None => query_value key s'
        end
      else query_value key s'
  end.

(** A text with no [?] and no [&]. *)
Fixpoint no_sep (s : string) : bool :=
  match s with
  | EmptyString => true
  | String a s' =>
      if decide (a = qmark ∨ a = amp) then false else no_sep s'
  end.

(** A request asks for a deletion that bypasses the trash when its
    [permanently] parameter is true. *)
Definition asks_permanent (q : request) : Prop :=
  query_value "permanently" (r_url q) = Some "True" ∨
  query_value "permanently" (r_url q) = Some "true".

(** A request asks for a deletion carried out before the answer when its
    [force_async] parameter is false. *)
Definition asks_synchronous (q : request) : Prop :=
  query_value "force_async" (r_url q) = Some "False" ∨
  query_value "force_async" (r_url q) = Some "false".

(** The dictionary of the cycle after the loop over the local names. *)
Definition pops (listing : list string) (files_cloud : dict) : dict :=
  foldl (λ d file, dict_pop file d) files_cloud listing.

(** The decision of the cycle for a local file, from the remote listing:
    the file is sent as a new file, or sent to replace its remote copy. *)
Definition sent_as_new (files_cloud : dict) (file : string) : bool :=
  negb (truthy (dict_get file files_cloud)).

Definition sent_to_replace (fs : directory) (files_cloud : dict)
    (file : string) : bool :=
  truthy (dict_get file files_cloud) &&
  match stat file fs with
  | Some e => newer (mtime e) (dict_get file files_cloud)
  | None => false
  end.

(** How many times a request was sent. *)
Definition invoked (q : request) (qs : list request) : nat :=
  length (filter (λ x, x = q) qs).

(** The state after [logger.info]. *)
Definition logged {W : Type} (s : state W) (m : log_message) : state W :=
  State (world s) (sent s) (journal s ++ [Info m]).

(** The requests sent between two states all satisfy [P]. *)
Definition extends {W : Type} (P : request → Prop) (s s' : state W) : Prop :=
  ∃ T, sent s' = sent s ++ T ∧ Forall P T.

Definition not_a_deletion (q : request) : Prop := r_method q ≠ DELETE.

(** The result is the store error, whatever it carries. *)
Definition store_error {A : Type} (out : result A) : Prop :=
  ∃ arg, out = Raise (CloudException arg).

(** ** Scenarios used below *)

Definition my_cloud : YandexCloud := YandexCloud_init "secret" "backup".

Definition my_path : string := "/home/user/sync".

Definition my_disk (files : list (string * timestamp)) : disk :=
  Disk (Some (list_to_map files)) None.

Definition my_send (clock : timestamp) (full : bool)
  : request → disk → outcome * disk :=
  disk_send "secret" "backup" clock full.

(** The cycle on the reference store, from a folder holding [files]. *)
Definition my_cycle (clock : timestamp) (full : bool) (fs : directory)
    (files : list (string * timestamp)) : result unit * state disk :=
  synchronization_body (my_send clock full) fs my_path my_cloud
    (initial (my_disk files)).

(** The cycle on scripted answers. *)
Definition scripted_cycle (fs : directory) (answers : list outcome)
  : result unit * state (list outcome) :=
  synchronization_body script_send fs my_path my_cloud (initial answers).

(** One local file, [a.txt], last changed at [t]. *)
Definition one_file (t : timestamp) : directory := [Entry "a.txt" t true].

(** Two local files, [a.txt] and [b.txt]. *)
Definition two_files : directory :=
  [Entry "a.txt" 100 true; Entry "b.txt" 120 true].

Definition listing_answer (its : list item) : outcome :=
  Answer (Response 200 None "" its).

Definition link_answer : outcome :=
  Answer (Response 200 None "https://uploader.yandex.net/1" []).

(** ** The start of the program and the traffic of a cycle *)

(** The end of [main], once the configuration is read and checked: the
    client is built from the token and the folder name, the remote folder
    is checked outside the handler, and the loop starts (its first [n]
    rounds). *)
Definition main_after_checks {W : Type} (send : request → W → outcome * W)
    (fs : directory) (n : nat)
    (token path_to_folder_on_pc name_folder_cloud : string) : M W unit :=
  let yandex := YandexCloud_init token name_folder_cloud in
  check_exists_folder_cloud send yandex ;;
  main_loop send fs n path_to_folder_on_pc yandex.

(** The requests a cycle may send after its listing request: for a local
    name, a request for an upload link or a transfer; for a name that is
    not local, a deletion. *)
Definition cycle_request (fs : directory) (path : string) (cloud : YandexCloud)
    (q : request) : Prop :=
  (∃ f, f ∈ names fs ∧
        (q = load_request cloud f ∨ q = reload_request cloud f ∨
         (∃ h, q = put_file_request h path f))) ∨
  (∃ k, (k ∉ names fs) ∧ q = delete_request cloud k).

(** A request carries the headers of the client, token included, unless
    it is a transfer, which carries none. *)
Definition token_kept (cloud : YandexCloud) (q : request) : Prop :=
  match r_files q with
  | None => r_headers q = Some (headers cloud)
  | Some _ => r_headers q = None ∧ r_method q = PUT
  end.


(** * Properties *)

(** ** Strings *)

Lemma app_nil_str (t : string) : "" +:+ t = t.
Proof. reflexivity. Qed.

Lemma app_cons_str (a : Ascii.ascii) (s t : string) :
  String a s +:+ t = String a (s +:+ t).
Proof. reflexivity. Qed.

Ltac str_simpl := rewrite ?app_nil_str, ?app_cons_str.
Ltac str_simpl_in H := rewrite ?app_nil_str, ?app_cons_str in H.

Lemma length_append (s t : string) :
  String.length (s +:+ t) = (String.length s + String.length t)%nat.
Proof. induction s as [|a s IH]; str_simpl; simpl; congruence. Qed.

Lemma app_assoc_str (s t u : string) : (s +:+ t) +:+ u = s +:+ (t +:+ u).
Proof. induction s as [|a s IH]; str_simpl; congruence. Qed.

(** Two texts with the same end are equal once the end is cut. *)
Lemma app_inj_r (s s' t : string) : s +:+ t = s' +:+ t → s = s'.
Proof.
  revert s'. induction s as [|a s IH]; intros [|a' s'] H; str_simpl_in H.
  - done.
  - apply (f_equal String.length) in H. simpl in H. rewrite length_append in H. lia.
  - apply (f_equal String.length) in H. simpl in H. rewrite length_append in H. lia.
  - injection H as -> H. f_equal. by apply IH.
Qed.

(** The same with two ends of one length. *)
Lemma app_inj_ends (s s' t t' : string) :
  String.length t = String.length t' →
  s +:+ t = s' +:+ t' → s = s' ∧ t = t'.
Proof.
  revert s'. induction s as [|a s IH]; intros [|a' s'] Hlen H; str_simpl_in H.
  - done.
  - apply (f_equal String.length) in H. simpl in H. rewrite length_append in H. lia.
  - apply (f_equal String.length) in H. simpl in H. rewrite length_append in H. lia.
  - injection H as -> H. destruct (IH s' Hlen H) as [-> ->]. done.
Qed.

Lemma strip_prefix_app (p s : string) : strip_prefix p (p +:+ s) = Some s.
Proof.
  induction p as [|a p IH]; str_simpl; simpl; [by destruct s |].
  by rewrite decide_True.
Qed.

Lemma strip_prefix_Some (p s t : string) :
  strip_prefix p s = Some t → s = p +:+ t.
Proof.
  revert s. induction p as [|a p IH]; intros s H.
  - destruct s; simpl in H; by inversion H.
  - destruct s as [|b s]; simpl in H; [done |].
    case_decide; [subst | done]. str_simpl. f_equal. by apply IH.
Qed.

Lemma strip_suffix_app (suf s : string) : strip_suffix suf (s +:+ suf) = Some s.
Proof.
  induction s as [|a s IH]; str_simpl; simpl.
  - destruct suf; simpl; [done | by rewrite decide_True].
  - rewrite decide_False.
    + by rewrite IH.
    + intros H. apply (f_equal String.length) in H. simpl in H.
      rewrite length_append in H. lia.
Qed.

Lemma strip_suffix_Some (suf s t : string) :
  strip_suffix suf s = Some t → s = t +:+ suf.
Proof.
  revert t. induction s as [|a s IH]; intros t H; simpl in H.
  - case_decide; [| done]. inversion H. by subst.
  - case_decide as Heq.
    + inversion H. by subst.
    + destruct (strip_suffix suf s) as [t'|] eqn:E; [| done].
      inversion H. str_simpl. f_equal. by apply IH.
Qed.

Lemma between_app (p suf s : string) : between p suf (p +:+ s +:+ suf) = Some s.
Proof.
  unfold between. rewrite strip_prefix_app. simpl. apply strip_suffix_app.
Qed.

Lemma between_Some (p suf s t : string) :
  between p suf s = Some t → s = p +:+ t +:+ suf.
Proof.
  unfold between. intros H.
  destruct (strip_prefix p s) as [r|] eqn:E; [| done]. simpl in H.
  apply strip_prefix_Some in E. apply strip_suffix_Some in H. by subst.
Qed.

(** The two values of [overwrite] never end the same URL. *)
Lemma overwrite_flags_differ (s t : string) :
  s +:+ "&overwrite=True" ≠ t +:+ "&overwrite=False".
Proof.
  intros H.
  change "&overwrite=True" with ("&overwrite=T" +:+ "rue") in H.
  change "&overwrite=False" with ("&overwrite=Fa" +:+ "lse") in H.
  rewrite <- !app_assoc_str in H.
  apply app_inj_ends in H as [_ H]; [discriminate H | reflexivity].
Qed.

(** ** Dictionaries *)

Lemma dict_get_None (k : string) (d : dict) :
  dict_get k d = None ↔ k ∉ dict_keys d.
Proof.
  induction d as [|[k' v] d IH]; simpl.
  - split; [intros _; apply not_elem_of_nil | done].
  - case_decide as Hk.
    + subst. split; [done |]. intros H. exfalso. apply H. by left.
    + rewrite IH, not_elem_of_cons. simpl. split; [by auto | by intros [_ ?]].
Qed.

Lemma dict_get_is_Some (k : string) (d : dict) :
  is_Some (dict_get k d) ↔ k ∈ dict_keys d.
Proof.
  destruct (dict_get k d) as [v|] eqn:E.
  - split; [intros _ | by eauto].
    destruct (decide (k ∈ dict_keys d)) as [|Hn]; [done |].
    apply dict_get_None in Hn. congruence.
  - split; [by intros [? ?] |]. intros Hin. by apply dict_get_None in E.
Qed.

Lemma dict_get_set (k k' : string) (v : timestamp) (d : dict) :
  dict_get k (dict_set k' v d) = if decide (k' = k) then Some v else dict_get k d.
Proof.
  induction d as [|[k0 v0] d IH]; simpl.
  - done.
  - destruct (decide (k0 = k')) as [->|Hne]; simpl.
    + by destruct (decide (k' = k)).
    + rewrite IH. destruct (decide (k0 = k)) as [->|]; [| done].
      by rewrite decide_False.
Qed.

Lemma dict_keys_set (k k' : string) (v : timestamp) (d : dict) :
  k ∈ dict_keys (dict_set k' v d) ↔ k = k' ∨ k ∈ dict_keys d.
Proof.
  rewrite <- !dict_get_is_Some, dict_get_set.
  case_decide; subst; split; eauto; intros [->|]; done.
Qed.

Lemma dict_set_NoDup (k : string) (v : timestamp) (d : dict) :
  NoDup (dict_keys d) → NoDup (dict_keys (dict_set k v d)).
Proof.
  induction d as [|[k0 v0] d IH]; simpl; intros H.
  - apply NoDup_singleton.
  - apply NoDup_cons in H as [Hn Hd].
    case_decide; subst; simpl.
    + by apply NoDup_cons.
    + apply NoDup_cons. split; [| by apply IH].
      fold (dict_keys (dict_set k v d)). rewrite dict_keys_set.
      intros [->|]; done.
Qed.

Lemma collect_NoDup (its : list item) (d : dict) :
  NoDup (dict_keys d) → NoDup (dict_keys (collect its d)).
Proof.
  revert d. induction its as [|it its IH]; intros d H; simpl; [done |].
  apply IH. by apply dict_set_NoDup.
Qed.

Lemma dict_pop_absent (k : string) (d : dict) :
  dict_get k d = None → dict_pop k d = d.
Proof.
  induction d as [|[k' v] d IH]; simpl; [done |].
  case_decide as Hk; [done |]. intros Hd. by rewrite IH.
Qed.

Lemma pop_or_none_eq (file : string) (d : dict) :
  pop_or_none file d = (dict_get file d, dict_pop file d).
Proof.
  unfold pop_or_none, dict_in.
  destruct (dict_get file d) eqn:E; [done |]. by rewrite dict_pop_absent.
Qed.

Lemma dict_get_pop_ne (k k' : string) (d : dict) :
  k ≠ k' → dict_get k' (dict_pop k d) = dict_get k' d.
Proof.
  intros Hne. induction d as [|[k0 v] d IH]; simpl; [done |].
  destruct (decide (k0 = k)) as [->|]; simpl.
  - by rewrite decide_False.
  - by rewrite IH.
Qed.

Lemma filter_ne_absent (k : string) (l : list string) :
  k ∉ l → filter (λ x, x ≠ k) l = l.
Proof.
  induction l as [|x l IH]; intros Hn; [done |].
  apply not_elem_of_cons in Hn as [Hx Hl].
  rewrite filter_cons_True by done. f_equal. by apply IH.
Qed.

Lemma filter_none (P : string → Prop) `{!∀ x, Decision (P x)} (l : list string) :
  (∀ x, x ∈ l → ¬ P x) → filter P l = [].
Proof.
  induction l as [|x l IH]; intros Hall; [done |].
  rewrite filter_cons_False by (apply Hall; by left).
  apply IH. intros y Hy. apply Hall. by right.
Qed.

Lemma dict_keys_pop (k : string) (d : dict) :
  NoDup (dict_keys d) →
  dict_keys (dict_pop k d) = filter (λ x, x ≠ k) (dict_keys d).
Proof.
  induction d as [|[k0 v] d IH]; simpl; intros H; [done |].
  apply NoDup_cons in H as [Hn Hd].
  destruct (decide (k0 = k)) as [->|Hne].
  - rewrite filter_cons_False by (simpl; auto).
    symmetry. by apply filter_ne_absent.
  - rewrite filter_cons_True by done. simpl. f_equal. by apply IH.
Qed.

Lemma dict_pop_NoDup (k : string) (d : dict) :
  NoDup (dict_keys d) → NoDup (dict_keys (dict_pop k d)).
Proof.
  intros H. rewrite dict_keys_pop by done. by apply NoDup_filter.
Qed.

(** What [collect] does to a key that no item names. *)
Lemma collect_other (n : string) (its : list item) (d : dict) :
  n ∉ item_name <$> its → dict_get n (collect its d) = dict_get n d.
Proof.
  revert d. induction its as [|it its IH]; intros d Hn; simpl; [done |].
  rewrite fmap_cons in Hn. apply not_elem_of_cons in Hn as [Hne Hn].
  rewrite IH by done. rewrite dict_get_set. by rewrite decide_False.
Qed.

Lemma collect_keys (n : string) (its : list item) (d : dict) :
  n ∈ dict_keys (collect its d) ↔ n ∈ item_name <$> its ∨ n ∈ dict_keys d.
Proof.
  revert d. induction its as [|it its IH]; intros d; simpl.
  - rewrite elem_of_nil. tauto.
  - rewrite IH, dict_keys_set, elem_of_cons. tauto.
Qed.

(** Every entry of the dictionary comes from an item or was there before. *)
Lemma collect_sound (n : string) (t : timestamp) (its : list item) (d : dict) :
  dict_get n (collect its d) = Some t →
  (∃ it, it ∈ its ∧ item_name it = n ∧ item_modified it = t) ∨
  dict_get n d = Some t.
Proof.
  revert d. induction its as [|it its IH]; intros d H; simpl in H; [by right |].
  apply IH in H as [(it' & Hin & Hn & Ht)|H].
  - left. exists it'. split; [by right | done].
  - rewrite dict_get_set in H. case_decide as Hk; [| by right].
    left. exists it. split; [by left |]. split; [done | congruence].
Qed.

(** With distinct names, every item is an entry of the dictionary. *)
Lemma collect_complete (it : item) (its : list item) (d : dict) :
  NoDup (item_name <$> its) → it ∈ its →
  dict_get (item_name it) (collect its d) = Some (item_modified it).
Proof.
  revert d. induction its as [|it0 its IH]; intros d Hnd Hin.
  - by apply elem_of_nil in Hin.
  - rewrite fmap_cons in Hnd. apply NoDup_cons in Hnd as [Hfresh Hnd].
    apply elem_of_cons in Hin as [->|Hin]; simpl.
    + rewrite collect_other by done. rewrite dict_get_set. by rewrite decide_True.
    + by apply IH.
Qed.

(** ** The client *)

Section Client.
Context {W : Type}.
Variable send : request → W → outcome * W.
Variable fs : directory.

Lemma requests_answer (q : request) (s : state W) (r : response) (w' : W) :
  send q (world s) = (Answer r, w') →
  requests send q s = (Ok r, State w' (sent s ++ [q]) (journal s)).
Proof. intros H. unfold requests. by rewrite H. Qed.

Lemma requests_answer_at (q : request) (w : W) (qs : list request)
    (ls : list log_line) (r : response) (w' : W) :
  send q w = (Answer r, w') →
  requests send q (State w qs ls) = (Ok r, State w' (qs ++ [q]) ls).
Proof. intros H. unfold requests. simpl. by rewrite H. Qed.

(** Whatever the transport does, a call of [requests] adds its request
    to those sent and writes nothing to the log. *)
Lemma requests_inv (q : request) (s s' : state W) (out : result response) :
  requests send q s = (out, s') →
  ∃ o w', send q (world s) = (o, w') ∧
          s' = State w' (sent s ++ [q]) (journal s) ∧
          out = match o with
                | Answer r => Ok r
                | NoConnection => Raise ConnectionError
                end.
Proof.
  unfold requests. destruct (send q (world s)) as [o w'] eqn:E.
  intros H. exists o, w'. split; [done |].
  destruct o; inversion H; by subst.
Qed.

(** C6. [get_info], once the listing request is answered: with status 200
    it returns the dictionary built from the items of the answer, whose
    keys are the names listed and whose values are the dates listed (for
    every item when the names are distinct); it raises [TokenException]
    exactly when the status is 401; with any other status it raises
    [CloudException] with the [message] of the answer.  It sends that one
    request and logs nothing. *)
Theorem get_info_outcome (self : YandexCloud) (s : state W)
    (r : response) (w' : W) :
  send (get_info_request self) (world s) = (Answer r, w') →
  (get_info send self s).2 =
    State w' (sent s ++ [get_info_request self]) (journal s) ∧
  (status_code r = 200 →
     ∃ files, (get_info send self s).1 = Ok files ∧
       NoDup (dict_keys files) ∧
       (∀ n, n ∈ dict_keys files ↔ n ∈ item_name <$> items r) ∧
       (∀ n t, dict_get n files = Some t →
          ∃ it, it ∈ items r ∧ item_name it = n ∧ item_modified it = t) ∧
       (NoDup (item_name <$> items r) →
          ∀ it, it ∈ items r →
            dict_get (item_name it) files = Some (item_modified it))) ∧
  ((get_info send self s).1 = Raise TokenException ↔ status_code r = 401) ∧
  (status_code r ≠ 200 → status_code r ≠ 401 →
     (get_info send self s).1 = Raise (CloudException (message r))).
Proof.
  intros Hsend. unfold get_info, requests_get, bind.
  fold (get_info_request self). rewrite (requests_answer _ _ _ _ Hsend).
  repeat case_decide; simpl; (split; [done |]).
  - split; [intros _ | split; [split; [done | lia] | done]].
    exists (collect (items r) []). split; [done |].
    split; [apply collect_NoDup, NoDup_nil_2 |].
    split; [| split].
    + intros n. rewrite collect_keys. split; [| by left].
      intros [?|Hn]; [done |]. by apply elem_of_nil in Hn.
    + intros n t Hn. by apply collect_sound in Hn as [?|?].
    + intros Hnd it Hin. by apply collect_complete.
  - split; [done |]. split; [done | done].
  - split; [done |]. split; [split; done | done].
Qed.

(** *** Uploads *)

Lemma open_rb_ok (file_name : string) (e : entry) (s : state W) :
  stat file_name fs = Some e → opens e = true →
  open_rb fs file_name s = (Ok tt, s).
Proof. intros Hs Ho. unfold open_rb. by rewrite Hs, Ho. Qed.

(** C10, as amended.  When the request for the upload link is answered
    with status 200, the local file opens and the transfer is answered,
    [__save] returns normally whatever the status of that last answer:
    it is never read. *)
Theorem save_ignores_transfer_status (self : YandexCloud)
    (u path file_name : string) (s : state W)
    (r : response) (w1 : W) (e : entry) (o : response) (w2 : W) :
  send (Request GET u (Some (headers self)) None) (world s) = (Answer r, w1) →
  status_code r = 200 →
  stat file_name fs = Some e → opens e = true →
  send (put_file_request (href r) path file_name) w1 = (Answer o, w2) →
  save send fs self u path file_name s =
    (Ok tt,
     State w2
       (sent s ++ [Request GET u (Some (headers self)) None;
                   put_file_request (href r) path file_name])
       (journal s)).
Proof.
  intros Hget H200 Hstat Hopen Hput.
  unfold save, requests_get, requests_put_files, bind.
  rewrite (requests_answer _ _ _ _ Hget).
  rewrite decide_True by done.
  rewrite (open_rb_ok _ _ _ Hstat Hopen).
  fold (put_file_request (href r) path file_name).
  rewrite (requests_answer_at _ _ _ _ _ _ Hput).
  unfold ret. by rewrite <- app_assoc.
Qed.

(** *** The folder *)

(** C8, as amended.  [check_exists_folder_cloud], once its request is
    answered: with a status other than 404, success or not, it returns
    normally and sends nothing more; with status 404 it sends the request
    that creates the folder, and once that one is answered it returns
    normally on status 201 and raises [CloudException] otherwise. *)
Theorem check_exists_folder_cloud_outcome (self : YandexCloud)
    (s : state W) (r : response) (w1 : W) :
  send (check_exists_request self) (world s) = (Answer r, w1) →
  (status_code r ≠ 404 →
     check_exists_folder_cloud send self s =
       (Ok tt, State w1 (sent s ++ [check_exists_request self]) (journal s))) ∧
  (status_code r = 404 →
     ∀ r2 w2, send (create_folder_request self) w1 = (Answer r2, w2) →
       check_exists_folder_cloud send self s =
         (if decide (status_code r2 = 201) then Ok tt
          else Raise (CloudException
                        (Some ("Ошибка: " +:+ fmt (message r2)))),
          State w2
            (sent s ++ [check_exists_request self; create_folder_request self])
            (journal s))).
Proof.
  intros Hcheck.
  unfold check_exists_folder_cloud, requests_get, bind.
  fold (check_exists_request self).
  rewrite (requests_answer _ _ _ _ Hcheck).
  split; intros Hst.
  - by rewrite decide_False.
  - intros r2 w2 Hcreate. rewrite decide_True by done.
    unfold create_folder_cloud, requests_put, bind.
    fold (create_folder_request self).
    rewrite (requests_answer_at _ _ _ _ _ _ Hcreate).
    rewrite <- app_assoc. simpl.
    destruct (decide (status_code r2 = 201)) as [H201|H201].
    + by rewrite decide_False by (intros ?; done).
    + by rewrite decide_True.
Qed.

(** *** Deletion *)

Lemma no_sep_app (s t : string) :
  no_sep (s +:+ t) = no_sep s && no_sep t.
Proof.
  induction s as [|a s IH]; str_simpl; simpl; [done |].
  by case_decide.
Qed.

Lemma query_value_skip (key s t : string) :
  no_sep s = true → query_value key (s +:+ t) = query_value key t.
Proof.
  induction s as [|a s IH]; str_simpl; simpl; [done |].
  case_decide; [done | exact IH].
Qed.

(** The two flags that [delete] puts at the end of its URL. *)
Lemma delete_url_flags (self : YandexCloud) (filename : string) :
  no_sep (name_folder_cloud self) = true → no_sep filename = true →
  query_value "force_async" (delete_url self filename) = Some "False" ∧
  query_value "permanently" (delete_url self filename) = Some "False".
Proof.
  intros Hfolder Hfile. unfold delete_url.
  rewrite !(query_value_skip _ url) by reflexivity.
  assert (Hmid : no_sep ("path=" +:+ name_folder_cloud self +:+ "/" +:+ filename) = true).
  { rewrite !no_sep_app, Hfolder, Hfile. reflexivity. }
  assert (Hsplit : ∀ rest,
    "?path=" +:+ name_folder_cloud self +:+ "/" +:+ filename +:+ rest =
    String qmark (("path=" +:+ name_folder_cloud self +:+ "/" +:+ filename) +:+ rest)).
  { intros rest. rewrite !app_assoc_str. reflexivity. }
  rewrite !Hsplit. split.
  - change (query_value "force_async" (String qmark ?x))
      with (query_value "force_async" x).
    rewrite (query_value_skip _ _ _ Hmid). reflexivity.
  - change (query_value "permanently" (String qmark ?x))
      with (query_value "permanently" x).
    rewrite (query_value_skip _ _ _ Hmid). reflexivity.
Qed.

(** C9, as amended.  [delete] sends one DELETE request for the file; the
    query of its URL ends with [force_async=False] and
    [permanently=False], so that, for names without [?] and [&], the
    deletion asked for is not deferred and is not permanent.  Once the
    request is answered, [delete] raises [CloudException] with the file
    name and the message of the answer exactly when the status is not
    204, and returns normally otherwise. *)
Theorem delete_outcome (self : YandexCloud) (filename : string)
    (s : state W) (r : response) (w1 : W) :
  send (delete_request self filename) (world s) = (Answer r, w1) →
  (delete send self filename s).2 =
    State w1 (sent s ++ [delete_request self filename]) (journal s) ∧
  r_method (delete_request self filename) = DELETE ∧
  r_url (delete_request self filename) =
    (url +:+ "?path=" +:+ name_folder_cloud self +:+ "/" +:+ filename)
      +:+ "&force_async=False&permanently=False" ∧
  (no_sep (name_folder_cloud self) = true → no_sep filename = true →
     asks_synchronous (delete_request self filename) ∧
     ¬ asks_permanent (delete_request self filename)) ∧
  ((delete send self filename s).1 =
     Raise (CloudException
              (Some ("Файл: " +:+ filename +:+ ", Ошибка: "
                       +:+ fmt (message r))))
   ↔ status_code r ≠ 204) ∧
  (status_code r = 204 → (delete send self filename s).1 = Ok tt).
Proof.
  intros Hsend. unfold delete, requests_delete, bind.
  fold (delete_request self filename).
  rewrite (requests_answer _ _ _ _ Hsend).
  split; [by case_decide |]. split; [done |].
  split; [simpl; unfold delete_url; by rewrite !app_assoc_str |].
  split.
  - intros Hfolder Hfile.
    destruct (delete_url_flags self filename Hfolder Hfile) as [Ha Hp].
    unfold asks_synchronous, asks_permanent.
    change (r_url (delete_request self filename))
      with (delete_url self filename).
    rewrite Ha, Hp.
    split; [by left |]. intros [?|?]; done.
  - case_decide as H204; simpl.
    + split; [split; done | done].
    + split; [split; [done | intros ?; done] | done].
Qed.

End Client.

(** ** The cycle *)

Lemma pops_NoDup (listing : list string) (d : dict) :
  NoDup (dict_keys d) → NoDup (dict_keys (pops listing d)).
Proof.
  revert d. induction listing as [|f rest IH]; intros d H; simpl; [done |].
  apply IH. by apply dict_pop_NoDup.
Qed.

Lemma pops_keys (listing : list string) (d : dict) :
  NoDup (dict_keys d) →
  dict_keys (pops listing d) = filter (λ k, k ∉ listing) (dict_keys d).
Proof.
  revert d. induction listing as [|f rest IH]; intros d H; simpl.
  - symmetry. induction (dict_keys d) as [|k l IHl]; [done |].
    rewrite filter_cons_True by apply not_elem_of_nil.
    apply NoDup_cons in H as [_ H]. f_equal. by apply IHl.
  - rewrite IH by by apply dict_pop_NoDup.
    rewrite dict_keys_pop by done. rewrite list_filter_filter.
    apply list_filter_iff. intros k. rewrite not_elem_of_cons. tauto.
Qed.

Lemma invoked_app (q : request) (l1 l2 : list request) :
  invoked q (l1 ++ l2) = (invoked q l1 + invoked q l2)%nat.
Proof. unfold invoked. by rewrite filter_app, length_app. Qed.

Lemma invoked_absent (q : request) (l : list request) :
  q ∉ l → invoked q l = 0%nat.
Proof.
  unfold invoked. induction l as [|x l IH]; intros Hn; [done |].
  apply not_elem_of_cons in Hn as [Hne Hn].
  rewrite filter_cons_False by (intros ->; done). by apply IH.
Qed.

(** The URL of a deletion determines the file. *)
Lemma delete_request_inj (cloud : YandexCloud) (n n' : string) :
  delete_request cloud n = delete_request cloud n' → n = n'.
Proof.
  intros H. injection H as H. unfold delete_url in H.
  repeat apply String.app_inj in H. by apply app_inj_r in H.
Qed.

Lemma invoked_deletes (cloud : YandexCloud) (n : string) (ks : list string) :
  NoDup ks →
  invoked (delete_request cloud n) (delete_request cloud <$> ks) =
    if decide (n ∈ ks) then 1%nat else 0%nat.
Proof.
  induction ks as [|k ks IH]; intros Hnd.
  - rewrite decide_False by apply not_elem_of_nil. done.
  - apply NoDup_cons in Hnd as [Hk Hnd]. rewrite fmap_cons.
    change (delete_request cloud k :: (delete_request cloud <$> ks))
      with ([delete_request cloud k] ++ (delete_request cloud <$> ks)).
    rewrite invoked_app, IH by done.
    destruct (decide (k = n)) as [->|Hne].
    + rewrite (decide_True (P := n ∈ n :: ks)) by by left.
      rewrite decide_False by done.
      unfold invoked. by rewrite filter_cons_True.
    + rewrite invoked_absent.
      2:{ rewrite list_elem_of_singleton. intros H.
          by apply delete_request_inj in H. }
      destruct (decide (n ∈ ks)) as [Hin|Hnin].
      * rewrite decide_True by by right. done.
      * rewrite decide_False; [done |].
        rewrite not_elem_of_cons. split; [by intros -> | done].
Qed.

Section Cycle.
Context {W : Type}.
Variable send : request → W → outcome * W.
Variable fs : directory.
Variable path_on_pc : string.
Variable cloud : YandexCloud.

Lemma bind_inv {A B} (m : M W A) (k : A → M W B) (s s' : state W)
    (out : result B) :
  bind m k s = (out, s') →
  (∃ a s1, m s = (Ok a, s1) ∧ k a s1 = (out, s')) ∨
  (∃ e, m s = (Raise e, s') ∧ out = Raise e).
Proof.
  unfold bind. destruct (m s) as [[a|e] s1]; intros H.
  - left. by exists a, s1.
  - right. exists e. by inversion H.
Qed.

Lemma extends_refl (P : request → Prop) (s : state W) : extends P s s.
Proof. exists []. by rewrite app_nil_r. Qed.

Lemma extends_trans (P : request → Prop) (s1 s2 s3 : state W) :
  extends P s1 s2 → extends P s2 s3 → extends P s1 s3.
Proof.
  intros (T1 & H1 & F1) (T2 & H2 & F2). exists (T1 ++ T2).
  split; [by rewrite H2, H1, app_assoc | by apply Forall_app].
Qed.

(** [__save], whatever comes of it, sends its link request, at most one
    more request, and no deletion. *)
Lemma save_extends (u file_name : string) (s s' : state W) (out : result unit) :
  save send fs cloud u path_on_pc file_name s = (out, s') →
  extends not_a_deletion s s'.
Proof.
  unfold save, requests_get, requests_put_files. intros H.
  apply bind_inv in H as [(r & s1 & Hr & H)|(e & Hr & _)];
    apply requests_inv in Hr as (o1 & w1 & _ & -> & _).
  2:{ exists [Request GET u (Some (headers cloud)) None].
      split; [done |]. by apply Forall_singleton. }
  case_decide.
  - apply bind_inv in H as [([] & s2 & Ho & H)|(e & Ho & _)].
    + unfold open_rb in Ho.
      destruct (stat file_name fs) as [en|]; [| done].
      destruct (opens en); [| done]. inversion Ho; subst s2.
      apply bind_inv in H as [(r2 & s3 & Hp & H)|(e & Hp & _)];
        apply requests_inv in Hp as (o2 & w2 & _ & Hs & _); simpl in Hs.
      * inversion H; subst s'. subst s3. simpl.
        exists [Request GET u (Some (headers cloud)) None;
                Request PUT (href r) None (Some (path_on_pc +:+ "/" +:+ file_name))].
        split; [by rewrite <- app_assoc |].
        by repeat constructor.
      * subst s'. simpl.
        exists [Request GET u (Some (headers cloud)) None;
                Request PUT (href r) None (Some (path_on_pc +:+ "/" +:+ file_name))].
        split; [by rewrite <- app_assoc |].
        by repeat constructor.
    + unfold open_rb in Ho.
      exists [Request GET u (Some (headers cloud)) None].
      split; [| by apply Forall_singleton].
      destruct (stat file_name fs) as [en|]; [destruct (opens en) |];
        inversion Ho; by subst.
  - inversion H. subst.
    exists [Request GET u (Some (headers cloud)) None].
    split; [done |]. by apply Forall_singleton.
Qed.

(** A successful [__save]: both requests were answered, the first with
    status 200, and the file opened. *)
Lemma save_ok_inv (u file_name : string) (s s' : state W) :
  save send fs cloud u path_on_pc file_name s = (Ok tt, s') →
  ∃ r w1 e o w2,
    send (Request GET u (Some (headers cloud)) None) (world s) = (Answer r, w1) ∧
    status_code r = 200 ∧
    stat file_name fs = Some e ∧ opens e = true ∧
    send (put_file_request (href r) path_on_pc file_name) w1 = (Answer o, w2) ∧
    s' = State w2
           (sent s ++ [Request GET u (Some (headers cloud)) None;
                       put_file_request (href r) path_on_pc file_name])
           (journal s).
Proof.
  unfold save, requests_get, requests_put_files. intros H.
  apply bind_inv in H as [(r & s1 & Hr & H)|(e & _ & ?)]; [| done].
  apply requests_inv in Hr as (o1 & w1 & Hsend1 & -> & Ho1).
  destruct o1 as [r1|]; [| done]. injection Ho1 as <-.
  case_decide as H200; [| done].
  apply bind_inv in H as [([] & s2 & Ho & H)|(e & _ & ?)]; [| done].
  unfold open_rb in Ho.
  destruct (stat file_name fs) as [en|] eqn:Hstat; [| done].
  destruct (opens en) eqn:Hopen; [| done]. inversion Ho; subst s2.
  apply bind_inv in H as [(r2 & s3 & Hp & H)|(e & _ & ?)]; [| done].
  apply requests_inv in Hp as (o2 & w2 & Hsend2 & -> & Ho2).
  destruct o2 as [r2'|]; [| done]. simpl in *.
  inversion H; subst s'.
  exists r, w1, en, r2', w2. rewrite <- app_assoc. done.
Qed.

Lemma delete_inv (filename : string) (s s' : state W) (out : result unit) :
  delete send cloud filename s = (out, s') →
  ∃ o w1,
    send (delete_request cloud filename) (world s) = (o, w1) ∧
    s' = State w1 (sent s ++ [delete_request cloud filename]) (journal s) ∧
    (out = Ok tt → ∃ r, o = Answer r ∧ status_code r = 204).
Proof.
  unfold delete, requests_delete. fold (delete_request cloud filename).
  intros H.
  apply bind_inv in H as [(r & s1 & Hr & H)|(e & Hr & ->)];
    apply requests_inv in Hr as (o & w1 & Hsend & Hs & Ho);
    exists o, w1; (split; [done |]).
  - subst s1. case_decide as H204; inversion H; subst.
    + split; [done | done].
    + split; [done |]. intros _. destruct o as [r'|]; [| done].
      injection Ho as <-. exists r. split; [done | lia].
  - subst s'. split; [done | done].
Qed.

Lemma get_info_inv (s s' : state W) (out : result dict) :
  get_info send cloud s = (out, s') →
  ∃ o w1,
    send (get_info_request cloud) (world s) = (o, w1) ∧
    s' = State w1 (sent s ++ [get_info_request cloud]) (journal s) ∧
    (∀ d, out = Ok d →
       ∃ r, o = Answer r ∧ status_code r = 200 ∧ d = collect (items r) []).
Proof.
  unfold get_info, requests_get. fold (get_info_request cloud). intros H.
  apply bind_inv in H as [(r & s1 & Hr & H)|(e & Hr & ->)];
    apply requests_inv in Hr as (o & w1 & Hsend & Hs & Ho);
    exists o, w1; (split; [done |]).
  - subst s1. destruct o as [r'|]; [| done]. injection Ho as <-.
    repeat case_decide; inversion H; subst; (split; [done |]).
    + intros d Hd. inversion Hd. by exists r.
    + done.
    + done.
  - subst s'. split; [done | done].
Qed.

(** *** The loop over the local names *)

Lemma for_files_cons (file : string) (rest : list string) (fc : dict)
    (d r : nat) :
  for_files send fs path_on_pc cloud (file :: rest) fc d r =
    bind (getmtime fs file) (λ modified,
      if negb (truthy (dict_get file fc)) then
        bind (load send fs cloud path_on_pc file) (λ _,
        bind (logger_info (FileSaved file)) (λ _,
          for_files send fs path_on_pc cloud rest (dict_pop file fc)
            (d + 1)%nat r))
      else if truthy (dict_get file fc) && newer modified (dict_get file fc) then
        bind (reload send fs cloud path_on_pc file) (λ _,
        bind (logger_info (FileRewritten file)) (λ _,
          for_files send fs path_on_pc cloud rest (dict_pop file fc)
            d (r + 1)%nat))
      else
        for_files send fs path_on_pc cloud rest (dict_pop file fc) d r).
Proof. simpl. by rewrite pop_or_none_eq. Qed.

(** Whatever comes of it, the loop sends no deletion. *)
Lemma for_files_extends (listing : list string) (fc : dict) (d r : nat)
    (s s' : state W) (out : result (dict * nat * nat)) :
  for_files send fs path_on_pc cloud listing fc d r s = (out, s') →
  extends not_a_deletion s s'.
Proof.
  revert fc d r s. induction listing as [|file rest IH]; intros fc d r s H.
  - inversion H. apply extends_refl.
  - rewrite for_files_cons in H.
    apply bind_inv in H as [(m & s0 & Hm & H)|(e & Hm & _)];
      unfold getmtime in Hm; destruct (stat file fs) as [en|];
      inversion Hm; subst; try apply extends_refl.
    destruct (negb (truthy (dict_get file fc)));
      [| destruct (truthy (dict_get file fc) && newer (mtime en) (dict_get file fc))].
    + apply bind_inv in H as [([] & s1 & Hl & H)|(e & Hl & _)];
        apply save_extends in Hl; [| done].
      apply bind_inv in H as [([] & s2 & Hlog & H)|(e & Hlog & _)];
        inversion Hlog; subst.
      apply IH in H. by eapply extends_trans.
    + apply bind_inv in H as [([] & s1 & Hl & H)|(e & Hl & _)];
        apply save_extends in Hl; [| done].
      apply bind_inv in H as [([] & s2 & Hlog & H)|(e & Hlog & _)];
        inversion Hlog; subst.
      apply IH in H. by eapply extends_trans.
    + by eapply IH.
Qed.

(** One round of the loop, when the loop comes to its end: the file has
    a date, and it was uploaded, overwritten or left alone. *)
Lemma for_files_step (file : string) (rest : list string) (fc : dict)
    (d r : nat) (s s' : state W) (res : dict * nat * nat) :
  for_files send fs path_on_pc cloud (file :: rest) fc d r s = (Ok res, s') →
  ∃ e, stat file fs = Some e ∧
    ((truthy (dict_get file fc) = false ∧
      ∃ s1, load send fs cloud path_on_pc file s = (Ok tt, s1) ∧
            for_files send fs path_on_pc cloud rest (dict_pop file fc)
              (d + 1)%nat r (logged s1 (FileSaved file)) = (Ok res, s')) ∨
     (truthy (dict_get file fc) = true ∧
      newer (mtime e) (dict_get file fc) = true ∧
      ∃ s1, reload send fs cloud path_on_pc file s = (Ok tt, s1) ∧
            for_files send fs path_on_pc cloud rest (dict_pop file fc)
              d (r + 1)%nat (logged s1 (FileRewritten file)) = (Ok res, s')) ∨
     (truthy (dict_get file fc) = true ∧
      newer (mtime e) (dict_get file fc) = false ∧
      for_files send fs path_on_pc cloud rest (dict_pop file fc) d r s
        = (Ok res, s'))).
Proof.
  rewrite for_files_cons. intros H.
  apply bind_inv in H as [(m & s0 & Hm & H)|(e & _ & ?)]; [| done].
  unfold getmtime in Hm. destruct (stat file fs) as [en|]; [| done].
  inversion Hm; subst m s0. exists en. split; [done |].
  destruct (truthy (dict_get file fc)) eqn:Ht; simpl in H.
  - destruct (newer (mtime en) (dict_get file fc)) eqn:Hn.
    + right. left. split; [done |]. split; [done |].
      apply bind_inv in H as [([] & s1 & Hl & H)|(e & _ & ?)]; [| done].
      apply bind_inv in H as [([] & s2 & Hlog & H)|(e & _ & ?)]; [| done].
      inversion Hlog; subst s2. by exists s1.
    + right. right. done.
  - left. split; [done |].
    apply bind_inv in H as [([] & s1 & Hl & H)|(e & _ & ?)]; [| done].
    apply bind_inv in H as [([] & s2 & Hlog & H)|(e & _ & ?)]; [| done].
    inversion Hlog; subst s2. by exists s1.
Qed.

(** At its end the loop has popped every local name. *)
Lemma for_files_dict (listing : list string) (fc : dict) (d r : nat)
    (s s' : state W) (fc' : dict) (d' r' : nat) :
  for_files send fs path_on_pc cloud listing fc d r s = (Ok (fc', d', r'), s') →
  fc' = pops listing fc.
Proof.
  revert fc d r s. induction listing as [|file rest IH]; intros fc d r s H.
  - by inversion H.
  - apply for_files_step in H
      as (e & _ & [(_ & s1 & _ & H)|[(_ & _ & s1 & _ & H)|(_ & _ & H)]]);
      by apply IH in H.
Qed.

(** *** The loop over the remaining keys *)

Lemma for_keys_sent (keys : list string) (n : nat) (s s' : state W)
    (out : result nat) :
  for_keys send cloud keys n s = (out, s') →
  ∃ ks, ks `prefix_of` keys ∧
        sent s' = sent s ++ (delete_request cloud <$> ks) ∧
        (∀ m, out = Ok m → ks = keys ∧ m = (n + length keys)%nat).
Proof.
  revert n s. induction keys as [|k keys IH]; intros n s H; simpl in H.
  - inversion H; subst. exists []. rewrite app_nil_r.
    split; [done |]. split; [done |]. intros m Hm. inversion Hm.
    split; [done | simpl; lia].
  - apply bind_inv in H as [([] & s1 & Hd & H)|(e & Hd & ->)];
      apply delete_inv in Hd as (o & w1 & _ & Hs & _).
    + apply bind_inv in H as [([] & s2 & Hlog & H)|(e & Hlog & _)];
        inversion Hlog; subst s2.
      apply IH in H as (ks & Hpre & Hsent & Hok). exists (k :: ks).
      split; [by apply prefix_cons |]. split.
      * rewrite Hsent, Hs. simpl. by rewrite <- app_assoc.
      * intros m Hm. destruct (Hok m Hm) as [-> ->].
        split; [done | simpl; lia].
    + exists [k]. split; [apply prefix_cons, prefix_nil |].
      split; [by rewrite Hs | done].
Qed.

(** *** The whole cycle *)

(** The requests of a cycle, whatever comes of it: the listing request,
    then requests that are not deletions, then the deletion of distinct
    names that are not local; at the end of a cycle these are all the
    listed names that are not local. *)
Lemma body_sent (s s' : state W) (out : result unit) :
  synchronization_body send fs path_on_pc cloud s = (out, s') →
  ∃ T ks,
    sent s' = sent s ++ get_info_request cloud :: T
                ++ (delete_request cloud <$> ks) ∧
    Forall not_a_deletion T ∧
    NoDup ks ∧
    (∀ n, n ∈ ks → n ∉ names fs) ∧
    (out = Ok tt →
       ∀ r w1, send (get_info_request cloud) (world s) = (Answer r, w1) →
         ks = filter (λ k, k ∉ names fs) (dict_keys (collect (items r) []))).
Proof.
  unfold synchronization_body. intros H.
  apply bind_inv in H as [(fc & s1 & Hg & H)|(e & Hg & ->)];
    apply get_info_inv in Hg as (o & w1 & Hsend & Hs1 & Hfc).
  2:{ exists [], []. rewrite Hs1. simpl.
      split; [done |]. split; [done |]. split; [apply NoDup_nil_2 |].
      split; [intros n Hn; by apply elem_of_nil in Hn | done]. }
  destruct (Hfc fc eq_refl) as (r & -> & H200 & ->).
  assert (Hnd : NoDup (dict_keys (collect (items r) []))).
  { apply collect_NoDup, NoDup_nil_2. }
  apply bind_inv in H as [([[fc' d'] r'] & s2 & Hf & H)|(e & Hf & ->)].
  2:{ apply for_files_extends in Hf as (T & HT & HF).
      exists T, []. rewrite HT, Hs1. simpl. rewrite app_nil_r, <- app_assoc.
      split; [done |]. split; [done |]. split; [apply NoDup_nil_2 |].
      split; [intros n Hn; by apply elem_of_nil in Hn | done]. }
  pose proof (for_files_dict _ _ _ _ _ _ _ _ _ Hf) as ->.
  apply for_files_extends in Hf as (T & HT & HF).
  pose proof (pops_keys (names fs) _ Hnd) as Hkeys.
  pose proof (pops_NoDup (names fs) _ Hnd) as Hnd'.
  assert (Hlocal : ∀ n, n ∈ dict_keys (pops (names fs) (collect (items r) []))
                        → n ∉ names fs).
  { intros n. rewrite Hkeys, list_elem_of_filter. tauto. }
  apply bind_inv in H as [(del & s3 & Hk & H)|(e & Hk & ->)].
  - inversion H; subst s' out. simpl.
    assert (∃ ks, sent s3 = sent s2 ++ (delete_request cloud <$> ks) ∧
                  ks = dict_keys (pops (names fs) (collect (items r) [])))
      as (ks & Hsent & ->).
    { case_decide as Hlen.
      - apply for_keys_sent in Hk as (ks & _ & Hsent & Hok).
        destruct (Hok del eq_refl) as [-> _]. by eexists.
      - inversion Hk; subst. exists [].
        rewrite app_nil_r. split; [done |].
        destruct (pops (names fs) (collect (items r) [])); [done |].
        simpl in Hlen. lia. }
    eexists T, _. rewrite Hsent, HT, Hs1. simpl. rewrite <- !app_assoc.
    split; [done |]. split; [done |]. split; [done |]. split; [done |].
    intros _ r0 w0 Hsend0. rewrite Hsend in Hsend0.
    injection Hsend0 as <- _. done.
  - assert (∃ ks, sent s' = sent s2 ++ (delete_request cloud <$> ks) ∧
                  ks `prefix_of` dict_keys (pops (names fs) (collect (items r) [])))
      as (ks & Hsent & [rest Hpre]).
    { case_decide as Hlen.
      - apply for_keys_sent in Hk as (ks & ? & Hsent & _). by exists ks.
      - inversion Hk. }
    exists T, ks. rewrite Hsent, HT, Hs1. simpl. rewrite <- !app_assoc.
    split; [done |]. split; [done |].
    rewrite Hpre in Hnd', Hlocal. apply NoDup_app in Hnd' as (? & _ & _).
    split; [done |]. split; [| done].
    intros n Hn. apply Hlocal, elem_of_app. by left.
Qed.

(** C4. In a cycle, whatever comes of it, no deletion is requested for a
    local name, and none is requested twice; in a cycle that comes to its
    end, the deletion of every name of the remote listing that is not a
    local name is requested exactly once. *)
Theorem deletes_exactly_the_remote_only_names (w : W) (r : response) (w1 : W)
    (out : result unit) (s' : state W) :
  send (get_info_request cloud) w = (Answer r, w1) →
  synchronization_body send fs path_on_pc cloud (initial w) = (out, s') →
  (∀ n, n ∈ names fs → invoked (delete_request cloud n) (sent s') = 0%nat) ∧
  (∀ n, (invoked (delete_request cloud n) (sent s') ≤ 1)%nat) ∧
  (out = Ok tt →
     ∀ n, n ∈ dict_keys (collect (items r) []) → n ∉ names fs →
          invoked (delete_request cloud n) (sent s') = 1%nat).
Proof.
  intros Hsend Hrun.
  apply body_sent in Hrun as (T & ks & Hsent & HT & Hnd & Hlocal & Hall).
  simpl in Hsent.
  assert (Hcount : ∀ n, invoked (delete_request cloud n) (sent s') =
                        if decide (n ∈ ks) then 1%nat else 0%nat).
  { intros n. rewrite Hsent.
    change (get_info_request cloud :: T ++ (delete_request cloud <$> ks))
      with ((get_info_request cloud :: T) ++ (delete_request cloud <$> ks)).
    rewrite invoked_app, invoked_deletes by done.
    rewrite invoked_absent; [done |].
    intros Hin. apply elem_of_cons in Hin as [Heq|Hin]; [done |].
    rewrite Forall_forall in HT. by apply HT in Hin. }
  split; [| split].
  - intros n Hn. rewrite Hcount. rewrite decide_False; [done |].
    intros Hin. by apply Hlocal in Hin.
  - intros n. rewrite Hcount. case_decide; lia.
  - intros Hok n Hn Hloc. rewrite Hcount.
    rewrite (Hall Hok r w1 Hsend). rewrite decide_True; [done |].
    by apply list_elem_of_filter.
Qed.

(** *** The handler and the scheduler loop *)

(** The handler sends nothing of its own. *)
Lemma synchronization_sent (s s' : state W) (out : result unit) :
  synchronization send fs path_on_pc cloud s = (out, s') →
  ∃ T, sent s' = sent s ++ get_info_request cloud :: T.
Proof.
  unfold synchronization, exception_decorator.
  destruct (synchronization_body send fs path_on_pc cloud s) as [o s1] eqn:Hb.
  apply body_sent in Hb as (T & ks & Hsent & _).
  intros H. exists (T ++ (delete_request cloud <$> ks)).
  destruct o as [[]|[]]; inversion H; subst; simpl; done.
Qed.

Lemma main_loop_sent (n : nat) (s s' : state W) (out : result unit) :
  main_loop send fs n path_on_pc cloud s = (out, s') →
  ∃ T, sent s' = sent s ++ T.
Proof.
  revert s. induction n as [|n IH]; intros s H; simpl in H.
  - inversion H. exists []. by rewrite app_nil_r.
  - apply bind_inv in H as [([] & s1 & Hlog & H)|(e & Hlog & _)];
      inversion Hlog; subst s1.
    apply bind_inv in H as [([] & s2 & Hsync & H)|(e & Hsync & _)];
      apply synchronization_sent in Hsync as (T & HT); simpl in HT.
    + apply IH in H as (T' & HT'). exists ((get_info_request cloud :: T) ++ T').
      by rewrite HT', HT, app_assoc.
    + by eexists.
Qed.

(** C7. When the listing request of a cycle is answered with status 401,
    the cycle raises [TokenException] after that one request: nothing is
    uploaded, overwritten or deleted.  The handler around the cycle logs
    the error and returns normally, so that the scheduler loop goes on with
    its next rounds, the first of which sends its own listing request. *)
Theorem auth_failure_aborts_the_cycle (s : state W) (r : response) (w1 : W) :
  send (get_info_request cloud) (world s) = (Answer r, w1) →
  status_code r = 401 →
  synchronization_body send fs path_on_pc cloud s =
    (Raise TokenException,
     State w1 (sent s ++ [get_info_request cloud]) (journal s)) ∧
  synchronization send fs path_on_pc cloud s =
    (Ok tt,
     State w1 (sent s ++ [get_info_request cloud])
       (journal s ++ [Error BadToken])) ∧
  (∀ n, main_loop send fs (S n) path_on_pc cloud s =
        main_loop send fs n path_on_pc cloud
          (State w1 (sent s ++ [get_info_request cloud])
             (journal s ++ [Info Started; Error BadToken]))) ∧
  (∀ n out s',
     main_loop send fs (S (S n)) path_on_pc cloud s = (out, s') →
     ∃ T, sent s' =
          sent s ++ get_info_request cloud :: get_info_request cloud :: T).
Proof.
  intros Hsend H401.
  assert (Hbody : ∀ ls,
    synchronization_body send fs path_on_pc cloud (State (world s) (sent s) ls) =
      (Raise TokenException,
       State w1 (sent s ++ [get_info_request cloud]) ls)).
  { intros ls. unfold synchronization_body, get_info, requests_get, bind.
    fold (get_info_request cloud).
    rewrite (requests_answer_at _ _ _ _ _ _ _ Hsend).
    rewrite decide_False by lia. by rewrite decide_True. }
  assert (Hloop : ∀ n, main_loop send fs (S n) path_on_pc cloud s =
        main_loop send fs n path_on_pc cloud
          (State w1 (sent s ++ [get_info_request cloud])
             (journal s ++ [Info Started; Error BadToken]))).
  { intros n. simpl. unfold bind at 1. unfold logger_info at 1.
    unfold bind at 1. unfold synchronization, exception_decorator.
    rewrite Hbody. unfold logger_error. simpl. by rewrite <- app_assoc. }
  split; [| split; [| split]].
  - destruct s as [w qs ls]. apply Hbody.
  - unfold synchronization, exception_decorator.
    destruct s as [w qs ls]. by rewrite Hbody.
  - exact Hloop.
  - intros n out s' H. rewrite Hloop in H. simpl in H.
    apply bind_inv in H as [([] & s1 & Hlog & H)|(e & Hlog & _)];
      inversion Hlog; subst s1.
    apply bind_inv in H as [([] & s2 & Hsync & H)|(e & Hsync & _)];
      apply synchronization_sent in Hsync as (T & HT); simpl in HT.
    + apply main_loop_sent in H as (T' & HT'). exists (T ++ T').
      rewrite HT', HT, <- !app_assoc. done.
    + exists T. rewrite HT, <- !app_assoc. done.
Qed.

End Cycle.

Lemma stat_Some (file : string) (fs : directory) (e : entry) :
  stat file fs = Some e → e ∈ fs ∧ name e = file.
Proof.
  induction fs as [|e0 fs IH]; simpl; [done |].
  case_decide as Hn.
  - intros [= <-]. split; [by left | done].
  - intros H. destruct (IH H) as [Hin Hname]. split; [by right | done].
Qed.

Lemma stat_elem (fs : directory) (e : entry) :
  NoDup (names fs) → e ∈ fs → stat (name e) fs = Some e.
Proof.
  induction fs as [|e0 fs IH]; intros Hnd Hin.
  - by apply elem_of_nil in Hin.
  - unfold names in Hnd. rewrite fmap_cons in Hnd.
    apply NoDup_cons in Hnd as [Hfresh Hnd]. simpl.
    apply elem_of_cons in Hin as [->|Hin].
    + by rewrite decide_True.
    + rewrite decide_False; [by apply IH |].
      intros Heq. apply Hfresh. rewrite Heq. by apply list_elem_of_fmap_2.
Qed.

(** ** The decisions of the cycle *)

Lemma invoked_cons (q x : request) (l : list request) :
  invoked q (x :: l) =
    ((if decide (x = q) then 1 else 0) + invoked q l)%nat.
Proof.
  unfold invoked. case_decide.
  - by rewrite filter_cons_True.
  - by rewrite filter_cons_False.
Qed.

Lemma load_request_inj (cloud : YandexCloud) (f f' : string) :
  load_request cloud f = load_request cloud f' → f = f'.
Proof.
  intros H. injection H as H. unfold load_url in H.
  repeat apply String.app_inj in H. by apply app_inj_r in H.
Qed.

Lemma reload_request_inj (cloud : YandexCloud) (f f' : string) :
  reload_request cloud f = reload_request cloud f' → f = f'.
Proof.
  intros H. injection H as H. unfold reload_url in H.
  repeat apply String.app_inj in H. by apply app_inj_r in H.
Qed.

Lemma reload_is_not_load (cloud : YandexCloud) (f f' : string) :
  reload_request cloud f ≠ load_request cloud f'.
Proof.
  intros H. injection H as H. unfold load_url, reload_url in H.
  repeat apply String.app_inj in H. by apply overwrite_flags_differ in H.
Qed.

Lemma get_info_is_not_a_link (cloud : YandexCloud) (f : string) :
  get_info_request cloud ≠ load_request cloud f ∧
  get_info_request cloud ≠ reload_request cloud f.
Proof.
  split; intros H; injection H; intros; discriminate.
Qed.

Section Decisions.
Context {W : Type}.
Variable send : request → W → outcome * W.
Variable fs : directory.
Variable path_on_pc : string.
Variable cloud : YandexCloud.

(** The requests of a successful [__save]. *)
Lemma save_ok_sent (u file : string) (s s1 : state W) :
  save send fs cloud u path_on_pc file s = (Ok tt, s1) →
  journal s1 = journal s ∧
  ∃ h, sent s1 =
       sent s ++ [Request GET u (Some (headers cloud)) None;
                  put_file_request h path_on_pc file].
Proof.
  intros H.
  apply save_ok_inv in H as (r & w1 & e & o & w2 & _ & _ & _ & _ & _ & ->).
  split; [done |]. by exists (href r).
Qed.

Lemma sent_as_new_pop (file f : string) (fc : dict) :
  file ≠ f → sent_as_new (dict_pop file fc) f = sent_as_new fc f.
Proof. intros H. unfold sent_as_new. by rewrite dict_get_pop_ne. Qed.

Lemma sent_to_replace_pop (file f : string) (fc : dict) :
  file ≠ f → sent_to_replace fs (dict_pop file fc) f = sent_to_replace fs fc f.
Proof. intros H. unfold sent_to_replace. by rewrite dict_get_pop_ne. Qed.

Lemma filter_pop_ext (P : dict → string → bool) (file : string)
    (rest : list string) (fc : dict) :
  (∀ f, file ≠ f → P (dict_pop file fc) f = P fc f) →
  file ∉ rest →
  filter (λ f, P (dict_pop file fc) f) rest = filter (λ f, P fc f) rest.
Proof.
  intros HP Hfresh. induction rest as [|x l IH]; [done |].
  apply not_elem_of_cons in Hfresh as [Hne Hfresh].
  rewrite !filter_cons, HP by done. rewrite IH by done. done.
Qed.

Lemma invoked_nil (q : request) : invoked q [] = 0%nat.
Proof. reflexivity. Qed.

Lemma put_is_not_a_link (h file f : string) :
  put_file_request h path_on_pc file ≠ load_request cloud f ∧
  put_file_request h path_on_pc file ≠ reload_request cloud f.
Proof. split; intros H; discriminate H. Qed.

(** The link requests among the two requests of an upload. *)
Lemma invoked_load_in_load (h file f : string) :
  invoked (load_request cloud f)
    [load_request cloud file; put_file_request h path_on_pc file]
  = if decide (f = file) then 1%nat else 0%nat.
Proof.
  rewrite !invoked_cons, invoked_nil.
  destruct (decide (put_file_request h path_on_pc file = load_request cloud f))
    as [Heq|_]; [discriminate Heq |].
  destruct (decide (f = file)) as [->|Hne].
  - by rewrite decide_True.
  - rewrite decide_False; [done |].
    intros Heq. by apply load_request_inj in Heq.
Qed.

Lemma invoked_reload_in_reload (h file f : string) :
  invoked (reload_request cloud f)
    [reload_request cloud file; put_file_request h path_on_pc file]
  = if decide (f = file) then 1%nat else 0%nat.
Proof.
  rewrite !invoked_cons, invoked_nil.
  destruct (decide (put_file_request h path_on_pc file = reload_request cloud f))
    as [Heq|_]; [discriminate Heq |].
  destruct (decide (f = file)) as [->|Hne].
  - by rewrite decide_True.
  - rewrite decide_False; [done |].
    intros Heq. by apply reload_request_inj in Heq.
Qed.

Lemma invoked_load_in_reload (h file f : string) :
  invoked (load_request cloud f)
    [reload_request cloud file; put_file_request h path_on_pc file]
  = 0%nat.
Proof.
  rewrite !invoked_cons, invoked_nil.
  destruct (decide (put_file_request h path_on_pc file = load_request cloud f))
    as [Heq|_]; [discriminate Heq |].
  by rewrite decide_False by apply reload_is_not_load.
Qed.

Lemma invoked_reload_in_load (h file f : string) :
  invoked (reload_request cloud f)
    [load_request cloud file; put_file_request h path_on_pc file]
  = 0%nat.
Proof.
  rewrite !invoked_cons, invoked_nil.
  destruct (decide (put_file_request h path_on_pc file = reload_request cloud f))
    as [Heq|_]; [discriminate Heq |].
  rewrite decide_False; [done |].
  intros Heq. symmetry in Heq. by apply reload_is_not_load in Heq.
Qed.

(** The decision for a name of the list, seen from the head of the list. *)
Lemma decision_cons (P : dict → string → bool) (file f : string)
    (rest : list string) (fc : dict) (here : nat) :
  (∀ g, file ≠ g → P (dict_pop file fc) g = P fc g) →
  file ∉ rest →
  here = (if P fc file then 1 else 0)%nat →
  ((if decide (f = file) then here else 0) +
   (if decide (f ∈ rest)
    then (if P (dict_pop file fc) f then 1 else 0) else 0))%nat
  = (if decide (f ∈ file :: rest)
     then (if P fc f then 1 else 0) else 0)%nat.
Proof.
  intros HP Hfresh ->. destruct (decide (f = file)) as [->|Hne].
  - rewrite (decide_True (P := file ∈ file :: rest)) by by left.
    rewrite (decide_False (P := file ∈ rest)) by done. lia.
  - rewrite HP by done.
    destruct (decide (f ∈ rest)) as [Hf|Hf].
    + by rewrite decide_True by by right.
    + rewrite decide_False; [done |]. rewrite not_elem_of_cons. done.
Qed.

(** What a loop that comes to its end requested and counted: one link
    request with [overwrite=False] for each file sent as new, one with
    [overwrite=True] for each file sent to replace its copy, and no other
    link request. *)
Lemma for_files_decisions (listing : list string) (fc : dict) (d r : nat)
    (s s' : state W) (fc' : dict) (d' r' : nat) :
  NoDup listing →
  for_files send fs path_on_pc cloud listing fc d r s = (Ok (fc', d', r'), s') →
  ∃ T, sent s' = sent s ++ T ∧
    (∀ f, invoked (load_request cloud f) T =
          if decide (f ∈ listing)
          then (if sent_as_new fc f then 1 else 0)%nat else 0%nat) ∧
    (∀ f, invoked (reload_request cloud f) T =
          if decide (f ∈ listing)
          then (if sent_to_replace fs fc f then 1 else 0)%nat else 0%nat) ∧
    d' = (d + length (filter (λ f, sent_as_new fc f) listing))%nat ∧
    r' = (r + length (filter (λ f, sent_to_replace fs fc f) listing))%nat.
Proof.
  revert fc d r s.
  induction listing as [|file rest IH]; intros fc d r s Hnd Hrun.
  - inversion Hrun; subst. exists []. rewrite app_nil_r.
    split; [done |]. split; [done |]. split; [done |].
    rewrite !filter_nil. simpl. split; lia.
  - apply NoDup_cons in Hnd as [Hfresh Hnd].
    pose proof (λ g, sent_as_new_pop file g fc) as Hnew.
    pose proof (λ g, sent_to_replace_pop file g fc) as Hrep.
    apply for_files_step in Hrun
      as (e & Hstat & [(Ht & s1 & Hl & H)|[(Ht & Hn & s1 & Hl & H)|(Ht & Hn & H)]]).
    + apply save_ok_sent in Hl as (_ & h & Hs1).
      destruct (IH _ _ _ _ Hnd H) as (T & HT & Hload & Hreload & Hd & Hr).
      assert (Hyes : sent_as_new fc file = true)
        by (unfold sent_as_new; by rewrite Ht).
      assert (Hno : sent_to_replace fs fc file = false)
        by (unfold sent_to_replace; by rewrite Ht).
      exists ([load_request cloud file; put_file_request h path_on_pc file] ++ T).
      split; [| split; [| split; [| split]]].
      * change (sent (logged s1 (FileSaved file))) with (sent s1) in HT.
        by rewrite HT, Hs1, <- app_assoc.
      * intros f. rewrite invoked_app, Hload, invoked_load_in_load.
        apply (decision_cons sent_as_new); [done | done | by rewrite Hyes].
      * intros f. rewrite invoked_app, Hreload, invoked_reload_in_load.
        rewrite <- (decision_cons (sent_to_replace fs) file f rest fc 0);
          [by destruct (decide (f = file)) | done | done | by rewrite Hno].
      * rewrite Hd, filter_cons_True by by rewrite Hyes.
        rewrite (filter_pop_ext sent_as_new) by done.
        cbn [length]. lia.
      * rewrite Hr, filter_cons_False by (rewrite Hno; exact id).
        by rewrite (filter_pop_ext (sent_to_replace fs)) by done.
    + apply save_ok_sent in Hl as (_ & h & Hs1).
      destruct (IH _ _ _ _ Hnd H) as (T & HT & Hload & Hreload & Hd & Hr).
      assert (Hno : sent_as_new fc file = false)
        by (unfold sent_as_new; by rewrite Ht).
      assert (Hyes : sent_to_replace fs fc file = true)
        by (unfold sent_to_replace; by rewrite Ht, Hstat, Hn).
      exists ([reload_request cloud file; put_file_request h path_on_pc file] ++ T).
      split; [| split; [| split; [| split]]].
      * change (sent (logged s1 (FileRewritten file))) with (sent s1) in HT.
        by rewrite HT, Hs1, <- app_assoc.
      * intros f. rewrite invoked_app, Hload, invoked_load_in_reload.
        rewrite <- (decision_cons sent_as_new file f rest fc 0);
          [by destruct (decide (f = file)) | done | done | by rewrite Hno].
      * intros f. rewrite invoked_app, Hreload, invoked_reload_in_reload.
        apply (decision_cons (sent_to_replace fs)); [done | done | by rewrite Hyes].
      * rewrite Hd, filter_cons_False by (rewrite Hno; exact id).
        by rewrite (filter_pop_ext sent_as_new) by done.
      * rewrite Hr, filter_cons_True by by rewrite Hyes.
        rewrite (filter_pop_ext (sent_to_replace fs)) by done.
        cbn [length]. lia.
    + destruct (IH _ _ _ _ Hnd H) as (T & HT & Hload & Hreload & Hd & Hr).
      assert (Hno : sent_as_new fc file = false)
        by (unfold sent_as_new; by rewrite Ht).
      assert (Hno' : sent_to_replace fs fc file = false)
        by (unfold sent_to_replace; by rewrite Ht, Hstat, Hn).
      exists T. split; [done |]. split; [| split; [| split]].
      * intros f. rewrite Hload.
        rewrite <- (decision_cons sent_as_new file f rest fc 0);
          [by destruct (decide (f = file)) | done | done | by rewrite Hno].
      * intros f. rewrite Hreload.
        rewrite <- (decision_cons (sent_to_replace fs) file f rest fc 0);
          [by destruct (decide (f = file)) | done | done | by rewrite Hno'].
      * rewrite Hd, filter_cons_False by (rewrite Hno; exact id).
        by rewrite (filter_pop_ext sent_as_new) by done.
      * rewrite Hr, filter_cons_False by (rewrite Hno'; exact id).
        by rewrite (filter_pop_ext (sent_to_replace fs)) by done.
Qed.

(** A cycle that comes to its end, step by step. *)
Lemma body_ok_inv (s s' : state W) :
  synchronization_body send fs path_on_pc cloud s = (Ok tt, s') →
  ∃ r w1 d' r' s2 del s3,
    send (get_info_request cloud) (world s) = (Answer r, w1) ∧
    status_code r = 200 ∧
    for_files send fs path_on_pc cloud (names fs) (collect (items r) []) 0 0
      (State w1 (sent s ++ [get_info_request cloud]) (journal s))
    = (Ok (pops (names fs) (collect (items r) []), d', r'), s2) ∧
    sent s3 = sent s2 ++ (delete_request cloud <$>
                dict_keys (pops (names fs) (collect (items r) []))) ∧
    del = length (dict_keys (pops (names fs) (collect (items r) []))) ∧
    s' = logged s3 (Summary d' r' del).
Proof.
  unfold synchronization_body. intros H.
  apply bind_inv in H as [(fc & s1 & Hg & H)|(e & _ & ?)]; [| done].
  apply get_info_inv in Hg as (o & w1 & Hsend & -> & Hfc).
  destruct (Hfc fc eq_refl) as (r & -> & H200 & ->).
  apply bind_inv in H as [([[fc' d'] r'] & s2 & Hf & H)|(e & _ & ?)]; [| done].
  pose proof (for_files_dict _ _ _ _ _ _ _ _ _ _ _ _ _ Hf) as ->.
  apply bind_inv in H as [(del & s3 & Hk & H)|(e & _ & ?)]; [| done].
  inversion H; subst s'. clear H.
  exists r, w1, d', r', s2, del, s3.
  split; [done |]. split; [done |]. split; [done |].
  case_decide as Hlen.
  - apply for_keys_sent in Hk as (ks & _ & Hsent & Hok).
    destruct (Hok del eq_refl) as [-> ->]. done.
  - inversion Hk; subst.
    destruct (pops (names fs) (collect (items r) [])); [| simpl in Hlen; lia].
    simpl. by rewrite app_nil_r.
Qed.

(** The decisions of a cycle that comes to its end, for a local folder
    whose names are distinct: for each local file, one request for an
    upload link with [overwrite=False] when the listing does not hold the
    name or holds it with the date 0, one with [overwrite=True] when the
    listing holds it with an older date that is not 0, and none otherwise;
    the last line of the log counts these files and the listed names that
    are not local. *)
Lemma cycle_decisions (w : W) (r : response) (w1 : W) (s' : state W) :
  NoDup (names fs) →
  send (get_info_request cloud) w = (Answer r, w1) →
  synchronization_body send fs path_on_pc cloud (initial w) = (Ok tt, s') →
  (∀ f, invoked (load_request cloud f) (sent s') =
        if decide (f ∈ names fs)
        then (if sent_as_new (collect (items r) []) f then 1 else 0)%nat
        else 0%nat) ∧
  (∀ f, invoked (reload_request cloud f) (sent s') =
        if decide (f ∈ names fs)
        then (if sent_to_replace fs (collect (items r) []) f then 1 else 0)%nat
        else 0%nat) ∧
  last (journal s') =
    Some (Info (Summary
      (length (filter (λ f, sent_as_new (collect (items r) []) f) (names fs)))
      (length (filter (λ f, sent_to_replace fs (collect (items r) []) f) (names fs)))
      (length (filter (λ k, k ∉ names fs) (dict_keys (collect (items r) [])))))).
Proof.
  intros Hnd Hsend Hrun.
  apply body_ok_inv in Hrun
    as (r0 & w0 & d' & r' & s2 & del & s3 & Hsend0 & _ & Hf & Hs3 & -> & ->).
  simpl in Hsend0. rewrite Hsend in Hsend0. injection Hsend0 as <- <-.
  apply for_files_decisions in Hf as (T & HT & Hload & Hreload & -> & ->);
    [| done].
  simpl in HT.
  assert (Hsent : sent (logged s3
            (Summary (0 + length (filter (λ f, sent_as_new (collect (items r) []) f) (names fs)))
               (0 + length (filter (λ f, sent_to_replace fs (collect (items r) []) f) (names fs)))
               (length (dict_keys (pops (names fs) (collect (items r) []))))))
          = [get_info_request cloud] ++ T ++
            (delete_request cloud <$>
               dict_keys (pops (names fs) (collect (items r) [])))).
  { simpl. by rewrite Hs3, HT. }
  assert (Hdel : ∀ q, r_method q = GET →
            invoked q (delete_request cloud <$>
              dict_keys (pops (names fs) (collect (items r) []))) = 0%nat).
  { intros q Hq. apply invoked_absent. intros Hin.
    apply list_elem_of_fmap in Hin as (k & -> & _). discriminate Hq. }
  split; [| split].
  - intros f. rewrite Hsent, !invoked_app, Hload, Hdel by done.
    rewrite invoked_absent; [lia |].
    rewrite list_elem_of_singleton. intros Heq. symmetry in Heq.
    exact (proj1 (get_info_is_not_a_link cloud f) Heq).
  - intros f. rewrite Hsent, !invoked_app, Hreload, Hdel by done.
    rewrite invoked_absent; [lia |].
    rewrite list_elem_of_singleton. intros Heq. symmetry in Heq.
    exact (proj2 (get_info_is_not_a_link cloud f) Heq).
  - unfold logged. cbn [journal]. rewrite last_snoc.
    rewrite pops_keys by apply collect_NoDup, NoDup_nil_2. done.
Qed.

(** The truth that is near C2: in such a cycle a local file is sent as a
    new file exactly when the listing does not hold its name or holds it
    with the date 0. *)
Lemma sent_as_new_iff (w : W) (r : response) (w1 : W) (s' : state W) (f : string) :
  NoDup (names fs) →
  send (get_info_request cloud) w = (Answer r, w1) →
  synchronization_body send fs path_on_pc cloud (initial w) = (Ok tt, s') →
  f ∈ names fs →
  (invoked (load_request cloud f) (sent s') = 1%nat ↔
     dict_get f (collect (items r) []) = None ∨
     dict_get f (collect (items r) []) = Some 0) ∧
  (invoked (load_request cloud f) (sent s') = 0%nat ↔
     ∃ t, dict_get f (collect (items r) []) = Some t ∧ t ≠ 0).
Proof.
  intros Hnd Hsend Hrun Hf.
  destruct (cycle_decisions _ _ _ _ Hnd Hsend Hrun) as (Hload & _ & _).
  rewrite Hload, decide_True by done. unfold sent_as_new, truthy.
  destruct (dict_get f (collect (items r) [])) as [t|]; simpl.
  - destruct (Z.eqb_spec t 0) as [->|Hne]; simpl.
    + split; [split; [by right | done] |].
      split; [done |]. by intros (t & [= <-] & ?).
    + split; [split; [done | by intros [?|[= ?]]] |].
      split; [| done]. intros _. by exists t.
  - split; [split; [by left | done] |].
    split; [done |]. by intros (t & ? & _).
Qed.

(** The truth that is near C3: in such a cycle a local file whose remote
    copy carries the same date, other than 0, is neither uploaded nor
    overwritten. *)
Lemma equal_true_dates_send_nothing (w : W) (r : response) (w1 : W)
    (s' : state W) (e : entry) :
  NoDup (names fs) →
  send (get_info_request cloud) w = (Answer r, w1) →
  synchronization_body send fs path_on_pc cloud (initial w) = (Ok tt, s') →
  e ∈ fs →
  dict_get (name e) (collect (items r) []) = Some (mtime e) →
  mtime e ≠ 0 →
  invoked (load_request cloud (name e)) (sent s') = 0%nat ∧
  invoked (reload_request cloud (name e)) (sent s') = 0%nat.
Proof.
  intros Hnd Hsend Hrun He Hsame Htrue.
  destruct (cycle_decisions _ _ _ _ Hnd Hsend Hrun) as (Hload & Hreload & _).
  assert (Hin : name e ∈ names fs) by by apply list_elem_of_fmap_2.
  rewrite Hload, Hreload, !decide_True by done.
  unfold sent_as_new, sent_to_replace. rewrite Hsame, (stat_elem _ _ Hnd He).
  simpl. rewrite Z.ltb_irrefl.
  assert ((mtime e =? 0) = false) as -> by by apply Z.eqb_neq.
  done.
Qed.

End Decisions.

(** ** The cycle against a faithful store *)

Section Store.
Context {W : Type}.
Variable send : request → W → outcome * W.
Variable content : W → gmap string timestamp.
Variable fs : directory.
Variable path_on_pc : string.
Variable cloud : YandexCloud.
Hypothesis store : faithful_store send content fs path_on_pc cloud.

(** A successful upload leaves the file in the folder, dated not before
    its local date, and changes nothing else. *)
Lemma upload_content (u file : string) (e : entry) (s s1 : state W) :
  u = load_url cloud file ∨ u = reload_url cloud file →
  stat file fs = Some e →
  save send fs cloud u path_on_pc file s = (Ok tt, s1) →
  ∃ t, mtime e ≤ t ∧ content (world s1) = <[file := t]> (content (world s)).
Proof.
  intros Hu Hstat Hsave.
  apply save_ok_inv in Hsave as (r & w1 & e' & o & w2 & Hget & H200 & _ & _ & Hput & ->).
  apply stat_Some in Hstat as [Hin <-]. simpl.
  eapply (store_uploads _ _ _ _ _ store); [exact Hin | | exact Hget | exact H200 | exact Hput].
  destruct Hu as [->| ->]; [by left | by right; left].
Qed.

Lemma for_files_content (listing : list string) (fc : dict) (d r : nat)
    (s s' : state W) (res : dict * nat * nat) :
  NoDup listing →
  for_files send fs path_on_pc cloud listing fc d r s = (Ok res, s') →
  (∀ n, n ∈ listing → dict_get n fc = content (world s) !! n) →
  (∀ n, n ∉ listing → content (world s') !! n = content (world s) !! n) ∧
  (∀ n, n ∈ listing →
     ∃ e t, stat n fs = Some e ∧ content (world s') !! n = Some t ∧ mtime e ≤ t).
Proof.
  revert fc d r s.
  induction listing as [|file rest IH]; intros fc d r s Hnd Hrun Hfc.
  - inversion Hrun; subst. split; [done |].
    intros n Hn. by apply elem_of_nil in Hn.
  - apply NoDup_cons in Hnd as [Hfresh Hnd].
    assert (Hrest : ∀ w, (∀ n, n ≠ file → content w !! n = content (world s) !! n) →
              ∀ n, n ∈ rest → dict_get n (dict_pop file fc) = content w !! n).
    { intros w Hw n Hn. assert (file ≠ n) by (intros ->; done).
      rewrite dict_get_pop_ne by done. rewrite Hw by done.
      apply Hfc. by right. }
    assert (Hgoal : ∀ (s1 : state W) e t,
      stat file fs = Some e → mtime e ≤ t →
      content (world s1) !! file = Some t →
      (∀ n, n ≠ file → content (world s1) !! n = content (world s) !! n) →
      (∀ d1 r1, for_files send fs path_on_pc cloud rest (dict_pop file fc) d1 r1 s1
         = (Ok res, s') →
      (∀ n, n ∉ file :: rest → content (world s') !! n = content (world s) !! n) ∧
      (∀ n, n ∈ file :: rest →
        ∃ e t, stat n fs = Some e ∧ content (world s') !! n = Some t ∧ mtime e ≤ t))).
    { intros s1 e t Hstat Hle Hfile Hother d1 r1 Hrun1.
      destruct (IH _ _ _ _ Hnd Hrun1 (Hrest _ Hother)) as [Hout Hin].
      split.
      - intros n Hn. apply not_elem_of_cons in Hn as [Hne Hn].
        rewrite Hout by done. by apply Hother.
      - intros n Hn. apply elem_of_cons in Hn as [->|Hn]; [| by apply Hin].
        exists e, t. rewrite Hout by done. done. }
    apply for_files_step in Hrun
      as (e & Hstat & [(_ & s1 & Hl & H)|[(_ & _ & s1 & Hl & H)|(Ht & Hn & H)]]).
    + apply (upload_content _ _ e) in Hl as (t & Hle & Hc); [| by left | done].
      eapply (Hgoal (logged s1 (FileSaved file)) e t); simpl; [done | done | | | exact H].
      * rewrite Hc. apply lookup_insert_eq.
      * intros n Hne. rewrite Hc. by apply lookup_insert_ne.
    + apply (upload_content _ _ e) in Hl as (t & Hle & Hc); [| by right | done].
      eapply (Hgoal (logged s1 (FileRewritten file)) e t); simpl; [done | done | | | exact H].
      * rewrite Hc. apply lookup_insert_eq.
      * intros n Hne. rewrite Hc. by apply lookup_insert_ne.
    + destruct (dict_get file fc) as [v|] eqn:Hv; [| done].
      simpl in Hn. apply Z.ltb_ge in Hn.
      eapply (Hgoal s e v); [done | done | | done | exact H].
      transitivity (dict_get file fc); [| exact Hv].
      symmetry. apply Hfc. by left.
Qed.

Lemma for_keys_content (keys : list string) (n : nat) (s s' : state W) (m : nat) :
  for_keys send cloud keys n s = (Ok m, s') →
  ∀ k, content (world s') !! k =
       if decide (k ∈ keys) then None else content (world s) !! k.
Proof.
  revert n s. induction keys as [|k0 keys IH]; intros n s H k; simpl in H.
  - inversion H; subst. by rewrite decide_False by apply not_elem_of_nil.
  - apply bind_inv in H as [([] & s1 & Hd & H)|(e & _ & ?)]; [| done].
    apply delete_inv in Hd as (o & w1 & Hsend & -> & Hok).
    destruct (Hok eq_refl) as (r & -> & H204).
    apply bind_inv in H as [([] & s2 & Hlog & H)|(e & _ & ?)]; [| done].
    inversion Hlog; subst s2.
    rewrite (IH _ _ H k). simpl.
    rewrite (store_deletes _ _ _ _ _ store _ _ _ _ Hsend H204).
    destruct (decide (k = k0)) as [->|Hne].
    + rewrite (decide_True (P := k0 ∈ k0 :: keys)) by by left.
      case_decide; [done | apply lookup_delete_eq].
    + rewrite lookup_delete_ne by done.
      destruct (decide (k ∈ keys)) as [Hin|Hnin].
      * by rewrite decide_True by by right.
      * rewrite decide_False; [done |].
        rewrite not_elem_of_cons. done.
Qed.

(** The remote folder after a cycle that comes to its end against a
    faithful store: a copy that is not older for every local entry, and
    nothing under any other name. *)
Lemma cycle_content (s s' : state W) :
  NoDup (names fs) →
  synchronization_body send fs path_on_pc cloud s = (Ok tt, s') →
  (∀ e, e ∈ fs → ∃ t, content (world s') !! name e = Some t ∧ mtime e ≤ t) ∧
  (∀ n, n ∉ names fs → content (world s') !! n = None).
Proof.
  intros Hnd Hrun. unfold synchronization_body in Hrun.
  apply bind_inv in Hrun as [(fc & s1 & Hg & H)|(e & _ & ?)]; [| done].
  apply get_info_inv in Hg as (o & w1 & Hsend & Hs1 & Hfc).
  destruct (Hfc fc eq_refl) as (r & -> & H200 & ->).
  destruct (store_lists _ _ _ _ _ store _ _ _ Hsend H200) as [Hsame Hlist].
  assert (Hndk : NoDup (dict_keys (collect (items r) []))).
  { apply collect_NoDup, NoDup_nil_2. }
  apply bind_inv in H as [([[fc' d'] r'] & s2 & Hf & H)|(e & _ & ?)]; [| done].
  pose proof (for_files_dict _ _ _ _ _ _ _ _ _ _ _ _ _ Hf) as ->.
  apply for_files_content in Hf as [Hout Hin]; [| done |].
  2:{ intros n _. subst s1. simpl. rewrite Hsame. apply Hlist. }
  subst s1. simpl in Hout, Hin. rewrite Hsame in Hout.
  apply bind_inv in H as [(del & s3 & Hk & H)|(e & _ & ?)]; [| done].
  inversion H; subst s'. simpl. clear H.
  assert (Hend : ∀ k, content (world s3) !! k =
            if decide (k ∈ dict_keys (pops (names fs) (collect (items r) [])))
            then None else content (world s2) !! k).
  { case_decide as Hlen.
    - intros k. by eapply for_keys_content.
    - inversion Hk; subst. intros k.
      destruct (pops (names fs) (collect (items r) [])); [| simpl in Hlen; lia].
      by rewrite decide_False by apply not_elem_of_nil. }
  assert (Hkeys : ∀ k, k ∈ dict_keys (pops (names fs) (collect (items r) []))
                       ↔ k ∈ dict_keys (collect (items r) []) ∧ k ∉ names fs).
  { intros k. rewrite pops_keys by done. rewrite list_elem_of_filter. tauto. }
  split.
  - intros e He.
    destruct (Hin (name e)) as (e' & t & Hstat & Hc & Hle).
    { by apply list_elem_of_fmap_2. }
    rewrite (stat_elem _ _ Hnd He) in Hstat. injection Hstat as <-.
    exists t. split; [| done]. rewrite Hend.
    rewrite decide_False; [done |]. rewrite Hkeys.
    intros [_ Hno]. apply Hno. by apply list_elem_of_fmap_2.
  - intros n Hloc. rewrite Hend.
    destruct (decide (n ∈ dict_keys (pops (names fs) (collect (items r) []))))
      as [|Hk']; [done |].
    destruct (content (world s2) !! n) as [t|] eqn:Hn; [| done].
    exfalso. apply Hk'. rewrite Hkeys. split; [| done].
    apply dict_get_is_Some. rewrite Hlist, <- Hout by done. by eexists.
Qed.

(** A loop over local files that all have a remote copy with a true date
    that is not older does nothing but pop them. *)
Lemma for_files_quiet (listing : list string) (fc : dict) (d r : nat)
    (s : state W) :
  NoDup listing →
  (∀ n, n ∈ listing →
     ∃ e t, stat n fs = Some e ∧ dict_get n fc = Some t ∧ t ≠ 0 ∧ mtime e ≤ t) →
  for_files send fs path_on_pc cloud listing fc d r s =
    (Ok (pops listing fc, d, r), s).
Proof.
  revert fc. induction listing as [|file rest IH]; intros fc Hnd Hall; [done |].
  apply NoDup_cons in Hnd as [Hfresh Hnd].
  destruct (Hall file) as (e & t & Hstat & Hget & Ht & Hle); [by left |].
  rewrite for_files_cons. unfold bind, getmtime. rewrite Hstat. unfold ret.
  rewrite Hget. simpl.
  assert ((t =? 0) = false) as -> by by apply Z.eqb_neq.
  assert ((t <? mtime e) = false) as -> by by apply Z.ltb_ge.
  simpl. apply IH; [done |].
  intros n Hn. destruct (Hall n) as (e' & t' & ? & ? & ? & ?); [by right |].
  exists e', t'. rewrite dict_get_pop_ne; [done |]. by intros ->.
Qed.

(** C1, as amended.  After a cycle that comes to its end against a
    faithful store, and for a local folder whose names are distinct, every
    local entry has a remote copy dated not before the local date, and
    every remote name is a local name. *)
Theorem cycle_leaves_remote_in_sync (w : W) (s' : state W) :
  NoDup (names fs) →
  synchronization_body send fs path_on_pc cloud (initial w) = (Ok tt, s') →
  mirrors fs (content (world s')).
Proof.
  intros Hnd Hrun.
  destruct (cycle_content _ _ Hnd Hrun) as [Hlocal Hother].
  split; [exact Hlocal |].
  intros n [t Hn].
  destruct (decide (n ∈ names fs)) as [Hin|Hout]; [exact Hin |].
  rewrite (Hother n Hout) in Hn. discriminate Hn.
Qed.

(** C5, as amended.  After a cycle that came to its end against a faithful
    store, when no file of the remote folder is dated 0 and the listing
    request of the next cycle is answered with status 200, that next cycle
    sends nothing but its listing request and reports no upload, no
    overwrite and no deletion. *)
Theorem second_cycle_is_idle (w : W) (s1 : state W) (r2 : response) (w2 : W) :
  NoDup (names fs) →
  synchronization_body send fs path_on_pc cloud (initial w) = (Ok tt, s1) →
  (∀ n, content (world s1) !! n ≠ Some 0) →
  send (get_info_request cloud) (world s1) = (Answer r2, w2) →
  status_code r2 = 200 →
  synchronization_body send fs path_on_pc cloud (initial (world s1)) =
    (Ok tt, State w2 [get_info_request cloud] [Info (Summary 0 0 0)]).
Proof.
  intros Hnd Hrun Hzero Hsend H200.
  destruct (cycle_content _ _ Hnd Hrun) as [Hlocal Hother].
  destruct (store_lists _ _ _ _ _ store _ _ _ Hsend H200) as [_ Hlist].
  unfold synchronization_body, get_info, requests_get, bind at 1, bind at 1.
  fold (get_info_request cloud). unfold initial.
  rewrite (requests_answer_at _ _ _ _ _ _ _ Hsend).
  rewrite decide_True by done. unfold ret at 1.
  unfold bind at 1. rewrite for_files_quiet; [| done |].
  2:{ intros n Hn. apply list_elem_of_fmap in Hn as (e & -> & He).
      destruct (Hlocal e He) as (t & Ht & Hle).
      exists e, t. split; [by apply stat_elem |].
      split; [by rewrite Hlist |]. split; [| done].
      intros ->. by apply (Hzero (name e)). }
  assert (pops (names fs) (collect (items r2) []) = []) as ->.
  { assert (Hk : dict_keys (pops (names fs) (collect (items r2) [])) = []).
    { rewrite pops_keys by apply collect_NoDup, NoDup_nil_2.
      apply filter_none. intros k Hk Hno.
      apply dict_get_is_Some in Hk as [t Hk].
      rewrite Hlist, (Hother k Hno) in Hk. discriminate Hk. }
    by destruct (pops (names fs) (collect (items r2) [])). }
  done.
Qed.

End Store.

(** ** The reference store is faithful *)

Lemma collect_map_to_list (m : gmap string timestamp) (n : string) :
  dict_get n (collect ((λ kv, Item kv.1 kv.2) <$> map_to_list m) []) = m !! n.
Proof.
  assert (Hnames : item_name <$> ((λ kv, Item kv.1 kv.2) <$> map_to_list m)
                   = (map_to_list m).*1).
  { rewrite <- list_fmap_compose. by apply list_fmap_ext. }
  destruct (m !! n) as [t|] eqn:Hm.
  - apply elem_of_map_to_list in Hm.
    apply (collect_complete (Item n t)).
    + rewrite Hnames. apply NoDup_fst_map_to_list.
    + by apply (list_elem_of_fmap_2 (λ kv, Item kv.1 kv.2) _ (n, t)).
  - rewrite collect_other; [done |].
    rewrite Hnames. intros Hin.
    apply list_elem_of_fmap in Hin as ([k v] & -> & Hkv).
    apply elem_of_map_to_list in Hkv. simpl in Hm. congruence.
Qed.

Section Disk.
Variables token folder : string.
Variable clock : timestamp.
Variable full : bool.

Let cloud : YandexCloud := YandexCloud_init token folder.

Lemma disk_send_put (h path file : string) (d : disk) :
  disk_send token folder clock full (put_file_request h path file) d =
    disk_store clock full h d.
Proof. reflexivity. Qed.

Lemma authorised_cloud (m : http_method) (u : string) :
  authorised token (Request m u (Some (headers cloud)) None) = true.
Proof.
  unfold authorised. simpl. apply bool_decide_eq_true.
  do 2 apply list_elem_of_further. apply list_elem_of_here.
Qed.

Lemma disk_send_get_info (d : disk) :
  disk_send token folder clock full (get_info_request cloud) d = disk_list d.
Proof.
  unfold disk_send, get_info_request. rewrite authorised_cloud.
  cbn [r_files r_method r_url negb].
  rewrite bool_decide_eq_true_2; [done |].
  unfold get_info_url. cbn [name_folder_cloud cloud YandexCloud_init].
  by rewrite !app_assoc_str.
Qed.

Lemma link_url_not_here (rest rest' : string) :
  url +:+ "/upload?path=" +:+ rest ≠ (url +:+ "?path=" +:+ folder) +:+ rest'.
Proof.
  rewrite !app_assoc_str. intros H. apply String.app_inj in H.
  str_simpl_in H. discriminate H.
Qed.

Lemma disk_send_load (file : string) (d : disk) :
  disk_send token folder clock full (load_request cloud file) d =
    disk_link file false d.
Proof.
  unfold disk_send, load_request. rewrite authorised_cloud.
  cbn [r_files r_method r_url negb].
  unfold load_url. cbn [name_folder_cloud cloud YandexCloud_init].
  rewrite !bool_decide_eq_false_2 by apply link_url_not_here.
  replace (url +:+ "/upload?path=" +:+ folder +:+ "/" +:+ file +:+ "&overwrite=False")
    with ((url +:+ "/upload?path=" +:+ folder +:+ "/") +:+ file +:+ "&overwrite=False")
    by by rewrite !app_assoc_str.
  by rewrite between_app.
Qed.

Lemma disk_send_reload (file : string) (d : disk) :
  disk_send token folder clock full (reload_request cloud file) d =
    disk_link file true d.
Proof.
  unfold disk_send, reload_request. rewrite authorised_cloud.
  cbn [r_files r_method r_url negb].
  unfold reload_url. cbn [name_folder_cloud cloud YandexCloud_init].
  rewrite !bool_decide_eq_false_2 by apply link_url_not_here.
  replace (url +:+ "/upload?path=" +:+ folder +:+ "/" +:+ file +:+ "&overwrite=True")
    with ((url +:+ "/upload?path=" +:+ folder +:+ "/") +:+ file +:+ "&overwrite=True")
    by by rewrite !app_assoc_str.
  rewrite between_app.
  destruct (between _ "&overwrite=False" _) as [t|] eqn:Hb; [| done].
  apply between_Some in Hb. apply String.app_inj in Hb.
  by apply overwrite_flags_differ in Hb.
Qed.

Lemma disk_send_delete (file : string) (d : disk) :
  disk_send token folder clock full (delete_request cloud file) d =
    disk_delete file d.
Proof.
  unfold disk_send, delete_request. rewrite authorised_cloud.
  cbn [r_files r_method r_url negb].
  unfold delete_url. cbn [name_folder_cloud cloud YandexCloud_init].
  replace (url +:+ "?path=" +:+ folder +:+ "/" +:+ file
             +:+ "&force_async=False&permanently=False")
    with (((url +:+ "?path=" +:+ folder) +:+ "/") +:+ file
             +:+ "&force_async=False&permanently=False")
    by by rewrite !app_assoc_str.
  by rewrite between_app.
Qed.

(** A disk with room left whose clock is not behind the local dates keeps
    the contract. *)
Lemma disk_faithful (fs : directory) (path : string) :
  full = false →
  (∀ e, e ∈ fs → mtime e ≤ clock) →
  faithful_store (disk_send token folder clock full) disk_files fs path cloud.
Proof.
  intros Hfull Hclock. split.
  - intros d r d' Hsend H200. rewrite disk_send_get_info in Hsend.
    unfold disk_list in Hsend.
    destruct (disk_folder d) as [f|] eqn:Hf.
    + injection Hsend as <- <-.
      split; [done |]. intros n. unfold disk_items. apply collect_map_to_list.
    + injection Hsend as <- <-. simpl in H200. lia.
  - intros d e q r d1 o d2 He Hq Hlink H200 Hput.
    assert (∃ ow, disk_link (name e) ow d = (Answer r, d1)) as [ow Hl].
    { apply elem_of_cons in Hq as [->|Hq].
      - exists false. by rewrite <- disk_send_load.
      - apply list_elem_of_singleton in Hq as ->.
        exists true. by rewrite <- disk_send_reload. }
    rewrite disk_send_put in Hput. unfold disk_link in Hl.
    unfold disk_files. destruct (disk_folder d) as [f|] eqn:Hf.
    2:{ injection Hl as <- <-. simpl in H200. lia. }
    destruct (bool_decide (is_Some (f !! name e)) && negb ow).
    { injection Hl as <- <-. simpl in H200. lia. }
    injection Hl as <- <-. unfold disk_store in Hput.
    cbn [disk_pending disk_folder href] in Hput.
    rewrite bool_decide_eq_true_2, Hfull in Hput by done.
    injection Hput as <- <-. cbn [disk_folder default].
    exists clock. split; [by apply Hclock | done].
  - intros d n r d' Hsend H204. rewrite disk_send_delete in Hsend.
    unfold disk_delete in Hsend. unfold disk_files.
    destruct (disk_folder d) as [f|] eqn:Hf.
    2:{ injection Hsend as <- <-. simpl in H204. lia. }
    destruct (bool_decide (is_Some (f !! n))); injection Hsend as <- <-.
    + cbn [disk_folder default]. done.
    + simpl in H204. lia.
Qed.

End Disk.

(** ** The properties at work *)

Ltac by_computation := apply (bool_decide_unpack _); vm_compute; exact I.

(** C6 at work: a listing of two items, answered with status 200. *)
Lemma get_info_outcome_witness :
  script_send (get_info_request my_cloud)
    [listing_answer [Item "a.txt" 100; Item "b.txt" 50]]
  = (listing_answer [Item "a.txt" 100; Item "b.txt" 50], []) ∧
  ∃ files,
    (get_info script_send my_cloud
       (initial [listing_answer [Item "a.txt" 100; Item "b.txt" 50]])).1
    = Ok files ∧
    dict_get "b.txt" files = Some 50.
Proof.
  split; [reflexivity |].
  destruct (get_info_outcome script_send my_cloud
              (initial [listing_answer [Item "a.txt" 100; Item "b.txt" 50]])
              (Response 200 None "" [Item "a.txt" 100; Item "b.txt" 50]) []
              eq_refl)
    as (_ & H200 & _).
  destruct (H200 eq_refl) as (files & Hfiles & _ & _ & _ & Hall).
  exists files. split; [exact Hfiles |].
  refine (Hall _ (Item "b.txt" 50) _); by_computation.
Defined.

(** C10 at work: the transfer is answered with status 507 and [__save]
    returns normally all the same. *)
Lemma save_ignores_transfer_status_witness :
  save script_send (one_file 100) my_cloud (load_url my_cloud "a.txt")
    my_path "a.txt"
    (initial [link_answer; Answer (reply 507 (Some "Insufficient Storage"))])
  = (Ok tt,
     State []
       [load_request my_cloud "a.txt";
        put_file_request "https://uploader.yandex.net/1" my_path "a.txt"]
       []).
Proof.
  apply (save_ignores_transfer_status script_send (one_file 100) my_cloud
           (load_url my_cloud "a.txt") my_path "a.txt"
           (initial [link_answer; Answer (reply 507 (Some "Insufficient Storage"))])
           (Response 200 None "https://uploader.yandex.net/1" [])
           [Answer (reply 507 (Some "Insufficient Storage"))]
           (Entry "a.txt" 100 true)
           (reply 507 (Some "Insufficient Storage")) []);
    reflexivity.
Defined.

(** C10 as stated fails: the link request is answered with status 200, the
    connection drops during the transfer, and [__save] raises. *)
Lemma save_raises_when_the_transfer_is_cut :
  (save script_send (one_file 100) my_cloud (load_url my_cloud "a.txt")
     my_path "a.txt" (initial [link_answer; NoConnection])).1
  = Raise ConnectionError.
Proof. vm_compute. reflexivity. Qed.

(** C8 at work: the folder is missing and is created. *)
Lemma check_exists_folder_cloud_outcome_witness :
  check_exists_folder_cloud script_send my_cloud
    (initial [Answer (reply 404 (Some "Resource not found."));
              Answer (reply 201 None)])
  = (Ok tt,
     State [] [check_exists_request my_cloud; create_folder_request my_cloud] []).
Proof.
  destruct (check_exists_folder_cloud_outcome script_send my_cloud
              (initial [Answer (reply 404 (Some "Resource not found."));
                        Answer (reply 201 None)])
              (reply 404 (Some "Resource not found."))
              [Answer (reply 201 None)] eq_refl)
    as [_ H404].
  exact (H404 eq_refl (reply 201 None) [] eq_refl).
Defined.

(** C8 as stated fails: the existence check is answered with status 500,
    neither a success nor 404, and no error is raised. *)
Lemma failed_existence_check_is_ignored :
  (check_exists_folder_cloud script_send my_cloud
     (initial [Answer (reply 500 (Some "Internal Server Error"))])).1 = Ok tt ∧
  ¬ store_error
      (check_exists_folder_cloud script_send my_cloud
         (initial [Answer (reply 500 (Some "Internal Server Error"))])).1.
Proof.
  split; [vm_compute; reflexivity |].
  intros [arg H]. vm_compute in H. discriminate H.
Qed.

(** C9 at work: the deletion of [b.txt] is refused with status 404. *)
Lemma delete_outcome_witness :
  (delete script_send my_cloud "b.txt"
     (initial [Answer (reply 404 (Some "Resource not found."))])).1
  = Raise (CloudException
             (Some ("Файл: " +:+ "b.txt" +:+ ", Ошибка: "
                      +:+ "Resource not found."))) ∧
  asks_synchronous (delete_request my_cloud "b.txt") ∧
  ¬ asks_permanent (delete_request my_cloud "b.txt").
Proof.
  destruct (delete_outcome script_send my_cloud "b.txt"
              (initial [Answer (reply 404 (Some "Resource not found."))])
              (reply 404 (Some "Resource not found.")) [] eq_refl)
    as (_ & _ & _ & Hflags & Hraise & _).
  split; [apply Hraise; simpl; lia |].
  apply Hflags; reflexivity.
Defined.

(** C9 as stated fails: the request of [delete] does not ask for a
    permanent deletion; its [permanently] parameter is [False]. *)
Lemma delete_sends_to_the_trash :
  (delete script_send my_cloud "b.txt" (initial [Answer (reply 204 None)])).2
  = State [] [delete_request my_cloud "b.txt"] [] ∧
  query_value "permanently" (r_url (delete_request my_cloud "b.txt"))
  = Some "False" ∧
  ¬ asks_permanent (delete_request my_cloud "b.txt").
Proof.
  split; [vm_compute; reflexivity |]. split; [vm_compute; reflexivity |].
  intros [H|H]; vm_compute in H; discriminate H.
Qed.

(** C2: the code misses the claim.  The remote listing holds [a.txt],
    dated 0; the local [a.txt] is taken for a new file all the same: the
    cycle asks for an upload link with [overwrite=False], transfers the
    file and counts one upload. *)
Theorem zero_dated_remote_copy_is_uploaded_as_new :
  dict_in "a.txt" (collect [Item "a.txt" 0] []) = true ∧
  scripted_cycle (one_file 100)
    [listing_answer [Item "a.txt" 0]; link_answer; Answer (reply 201 None)]
  = (Ok tt,
     State []
       [get_info_request my_cloud;
        load_request my_cloud "a.txt";
        put_file_request "https://uploader.yandex.net/1" my_path "a.txt"]
       [Info (FileSaved "a.txt"); Info (Summary 1 0 0)]).
Proof. split; vm_compute; reflexivity. Qed.

(** C3: the code misses the claim.  The local and the remote [a.txt] are
    both dated 0; the dates are equal and the file is uploaded all the
    same, and counted as an upload. *)
Theorem equal_zero_dates_still_upload :
  mtime <$> stat "a.txt" (one_file 0) = Some 0 ∧
  dict_get "a.txt" (collect [Item "a.txt" 0] []) = Some 0 ∧
  scripted_cycle (one_file 0)
    [listing_answer [Item "a.txt" 0]; link_answer; Answer (reply 201 None)]
  = (Ok tt,
     State []
       [get_info_request my_cloud;
        load_request my_cloud "a.txt";
        put_file_request "https://uploader.yandex.net/1" my_path "a.txt"]
       [Info (FileSaved "a.txt"); Info (Summary 1 0 0)]).
Proof. repeat split; vm_compute; reflexivity. Qed.

(** C4 at work: [a.txt] is local and remote, [b.txt] is remote only. *)
Lemma deletes_exactly_the_remote_only_names_witness :
  (my_cycle 150 false (one_file 100) [("a.txt", 100); ("b.txt", 50)]).1 = Ok tt ∧
  invoked (delete_request my_cloud "b.txt")
    (sent (my_cycle 150 false (one_file 100) [("a.txt", 100); ("b.txt", 50)]).2)
  = 1%nat ∧
  invoked (delete_request my_cloud "a.txt")
    (sent (my_cycle 150 false (one_file 100) [("a.txt", 100); ("b.txt", 50)]).2)
  = 0%nat.
Proof.
  destruct (deletes_exactly_the_remote_only_names (my_send 150 false)
              (one_file 100) my_path my_cloud
              (my_disk [("a.txt", 100); ("b.txt", 50)])
              (Response 200 None ""
                 (disk_items (my_disk [("a.txt", 100); ("b.txt", 50)])))
              (my_disk [("a.txt", 100); ("b.txt", 50)])
              (my_cycle 150 false (one_file 100) [("a.txt", 100); ("b.txt", 50)]).1
              (my_cycle 150 false (one_file 100) [("a.txt", 100); ("b.txt", 50)]).2)
    as (Hlocal & _ & Hremote).
  - vm_compute. reflexivity.
  - apply surjective_pairing.
  - split; [vm_compute; reflexivity |]. split.
    + apply Hremote; [vm_compute; reflexivity | by_computation | by_computation].
    + apply Hlocal. by_computation.
Defined.

(** C7 at work: the token is refused, then the next round is served. *)
Lemma auth_failure_aborts_the_cycle_witness :
  synchronization_body script_send (one_file 100) my_path my_cloud
    (initial [Answer (reply 401 (Some "Unauthorized")); listing_answer []])
  = (Raise TokenException,
     State [listing_answer []] [get_info_request my_cloud] []) ∧
  main_loop script_send (one_file 100) 1 my_path my_cloud
    (initial [Answer (reply 401 (Some "Unauthorized")); listing_answer []])
  = (Ok tt,
     State [listing_answer []] [get_info_request my_cloud]
       [Info Started; Error BadToken]).
Proof.
  destruct (auth_failure_aborts_the_cycle script_send (one_file 100) my_path
              my_cloud
              (initial [Answer (reply 401 (Some "Unauthorized")); listing_answer []])
              (reply 401 (Some "Unauthorized")) [listing_answer []]
              eq_refl eq_refl)
    as (Hbody & _ & Hloop & _).
  split; [exact Hbody | exact (Hloop 0%nat)].
Defined.

(** C1 at work: [a.txt] is overwritten, [b.txt] is uploaded and [old.txt]
    is deleted. *)
Lemma cycle_leaves_remote_in_sync_witness :
  mirrors two_files
    (disk_files
       (world (my_cycle 150 false two_files [("a.txt", 50); ("old.txt", 10)]).2)).
Proof.
  apply (cycle_leaves_remote_in_sync (my_send 150 false) disk_files two_files
           my_path my_cloud) with
    (w := my_disk [("a.txt", 50); ("old.txt", 10)]).
  - apply disk_faithful; [reflexivity |].
    intros e He. apply list_elem_of_In in He. simpl in He.
    destruct He as [<-|[<-|[]]]; simpl; lia.
  - by_computation.
  - vm_compute. reflexivity.
Defined.

(** C1 as stated fails: the disk is full, the transfer of [a.txt] is
    answered with status 507, the cycle comes to its end and reports one
    upload, and the remote folder does not hold [a.txt]. *)
Lemma full_disk_loses_the_upload :
  (my_cycle 150 true (one_file 100) []).1 = Ok tt ∧
  journal (my_cycle 150 true (one_file 100) []).2
  = [Info (FileSaved "a.txt"); Info (Summary 1 0 0)] ∧
  ¬ mirrors (one_file 100)
      (disk_files (world (my_cycle 150 true (one_file 100) []).2)).
Proof.
  split; [vm_compute; reflexivity |]. split; [vm_compute; reflexivity |].
  intros [Hlocal _].
  destruct (Hlocal (Entry "a.txt" 100 true)) as (t & Ht & _); [by left |].
  vm_compute in Ht. discriminate Ht.
Qed.

(** C5 at work: the second cycle after the one of C1. *)
Lemma second_cycle_is_idle_witness :
  synchronization_body (my_send 150 false) two_files my_path my_cloud
    (initial (world (my_cycle 150 false two_files [("a.txt", 50); ("old.txt", 10)]).2))
  = (Ok tt,
     State (world (my_cycle 150 false two_files [("a.txt", 50); ("old.txt", 10)]).2)
       [get_info_request my_cloud] [Info (Summary 0 0 0)]).
Proof.
  apply (second_cycle_is_idle (my_send 150 false) disk_files two_files
           my_path my_cloud) with
    (w := my_disk [("a.txt", 50); ("old.txt", 10)])
    (r2 := Response 200 None ""
             (disk_items
                (world (my_cycle 150 false two_files
                          [("a.txt", 50); ("old.txt", 10)]).2))).
  - apply disk_faithful; [reflexivity |].
    intros e He. apply list_elem_of_In in He. simpl in He.
    destruct He as [<-|[<-|[]]]; simpl; lia.
  - by_computation.
  - vm_compute. reflexivity.
  - intros n Hn. apply elem_of_map_to_list in Hn. vm_compute in Hn.
    apply list_elem_of_In in Hn. simpl in Hn.
    destruct Hn as [Hn|[Hn|[]]]; discriminate Hn.
  - vm_compute. reflexivity.
  - reflexivity.
Defined.

(** C5 as stated fails: [a.txt] is dated 200 locally and the store dates
    its copy 150.  The first cycle uploads the file; the second cycle, run
    on the remote folder as the first one left it, overwrites it. *)
Lemma future_dated_file_is_sent_again :
  (my_cycle 150 false (one_file 200) []).1 = Ok tt ∧
  map_to_list (disk_files (world (my_cycle 150 false (one_file 200) []).2))
  = [("a.txt", 150)] ∧
  (synchronization_body (my_send 150 false) (one_file 200) my_path my_cloud
     (initial (world (my_cycle 150 false (one_file 200) []).2))).1 = Ok tt ∧
  journal
    (synchronization_body (my_send 150 false) (one_file 200) my_path my_cloud
       (initial (world (my_cycle 150 false (one_file 200) []).2))).2
  = [Info (FileRewritten "a.txt"); Info (Summary 0 1 0)].
Proof. repeat split; vm_compute; reflexivity. Qed.

(** * More properties of the cycle *)

(** The deletions of a cycle, counted. *)
Lemma deletions_counted {W : Type} (send : request → W → outcome * W)
    (fs : directory) (path_on_pc : string) (cloud : YandexCloud)
    (s' : state W) (w : W) (out : result unit) :
  synchronization_body send fs path_on_pc cloud (initial w) = (out, s') →
  ∃ ks, NoDup ks ∧
    (∀ n, invoked (delete_request cloud n) (sent s') =
          if decide (n ∈ ks) then 1%nat else 0%nat) ∧
    (out = Ok tt →
       ∀ r w1, send (get_info_request cloud) w = (Answer r, w1) →
         ks = filter (λ k, k ∉ names fs) (dict_keys (collect (items r) []))).
Proof.
  intros Hrun.
  apply body_sent in Hrun as (T & ks & Hsent & HT & Hnd & _ & Hall).
  simpl in Hsent. exists ks. split; [done |]. split; [| done].
  intros n. rewrite Hsent.
  change (get_info_request cloud :: T ++ (delete_request cloud <$> ks))
    with ((get_info_request cloud :: T) ++ (delete_request cloud <$> ks)).
  rewrite invoked_app, invoked_deletes by done.
  rewrite invoked_absent; [done |].
  intros Hin. apply elem_of_cons in Hin as [Heq|Hin]; [done |].
  rewrite Forall_forall in HT. by apply HT in Hin.
Qed.

Lemma disjoint_filters_length {A : Type} (P Q : A → bool) (l : list A) :
  (∀ x, P x = true → Q x = false) →
  (length (filter (λ x, P x) l) + length (filter (λ x, Q x) l) ≤ length l)%nat.
Proof.
  intros HPQ. induction l as [|x l IH]; [done |].
  rewrite !filter_cons. destruct (P x) eqn:HP.
  - rewrite (HPQ x HP). simpl. lia.
  - destruct (Q x); simpl; lia.
Qed.

Lemma filter_all {A : Type} (l : list A) : filter (λ _, True) l = l.
Proof.
  induction l as [|x l IH]; [done |].
  rewrite filter_cons_True by exact I. by rewrite IH.
Qed.

Lemma filter_nothing {A : Type} (l : list A) : filter (λ _, False) l = [].
Proof.
  induction l as [|x l IH]; [done |].
  by rewrite filter_cons_False by exact id.
Qed.

Section Table.
Context {W : Type}.
Variable send : request → W → outcome * W.
Variable fs : directory.
Variable path_on_pc : string.
Variable cloud : YandexCloud.

(** X1. The decisions of a cycle that comes to its end, for a local folder
    whose names are distinct.  A local file whose name the listing does not
    hold gets one request for an upload link with [overwrite=False] and
    none with [overwrite=True]; one whose remote copy is dated before it,
    and not 0, gets one with [overwrite=True] and none with
    [overwrite=False]; one whose remote copy is dated as it is or after
    it, and not 0, gets neither.  No link is requested for a name that is
    not local. *)
Theorem cycle_decision_table (w : W) (r : response) (w1 : W) (s' : state W) :
  NoDup (names fs) →
  send (get_info_request cloud) w = (Answer r, w1) →
  synchronization_body send fs path_on_pc cloud (initial w) = (Ok tt, s') →
  (∀ e, e ∈ fs →
     (dict_get (name e) (collect (items r) []) = None →
        invoked (load_request cloud (name e)) (sent s') = 1%nat ∧
        invoked (reload_request cloud (name e)) (sent s') = 0%nat) ∧
     (∀ t, dict_get (name e) (collect (items r) []) = Some t →
           t ≠ 0 → t < mtime e →
        invoked (load_request cloud (name e)) (sent s') = 0%nat ∧
        invoked (reload_request cloud (name e)) (sent s') = 1%nat) ∧
     (∀ t, dict_get (name e) (collect (items r) []) = Some t →
           t ≠ 0 → mtime e ≤ t →
        invoked (load_request cloud (name e)) (sent s') = 0%nat ∧
        invoked (reload_request cloud (name e)) (sent s') = 0%nat)) ∧
  (∀ f, f ∉ names fs →
     invoked (load_request cloud f) (sent s') = 0%nat ∧
     invoked (reload_request cloud f) (sent s') = 0%nat).
Proof.
  intros Hnd Hsend Hrun.
  destruct (cycle_decisions _ _ _ _ _ _ _ _ Hnd Hsend Hrun) as (Hload & Hreload & _).
  split.
  - intros e He.
    assert (Hin : name e ∈ names fs) by by apply list_elem_of_fmap_2.
    rewrite Hload, Hreload, !decide_True by done.
    unfold sent_as_new, sent_to_replace. rewrite (stat_elem _ _ Hnd He).
    split; [| split].
    + intros ->. done.
    + intros t -> Ht Hlt. simpl.
      assert ((t =? 0) = false) as -> by by apply Z.eqb_neq.
      assert ((t <? mtime e) = true) as -> by by apply Z.ltb_lt.
      done.
    + intros t -> Ht Hle. simpl.
      assert ((t =? 0) = false) as -> by by apply Z.eqb_neq.
      assert ((t <? mtime e) = false) as -> by by apply Z.ltb_ge.
      done.
  - intros f Hf. by rewrite Hload, Hreload, !decide_False.
Qed.

(** X2. The last line of the log of a cycle that comes to its end counts
    the local files sent as new, those sent to replace their copy and the
    listed names that are not local; no file is counted twice, so the
    first two counts add up to at most the number of local files. *)
Theorem summary_counts (w : W) (r : response) (w1 : W) (s' : state W) :
  NoDup (names fs) →
  send (get_info_request cloud) w = (Answer r, w1) →
  synchronization_body send fs path_on_pc cloud (initial w) = (Ok tt, s') →
  ∃ uploaded overwritten deleted,
    last (journal s') = Some (Info (Summary uploaded overwritten deleted)) ∧
    uploaded =
      length (filter (λ f, sent_as_new (collect (items r) []) f) (names fs)) ∧
    overwritten =
      length (filter (λ f, sent_to_replace fs (collect (items r) []) f) (names fs)) ∧
    deleted =
      length (filter (λ k, k ∉ names fs) (dict_keys (collect (items r) []))) ∧
    (uploaded + overwritten ≤ length fs)%nat.
Proof.
  intros Hnd Hsend Hrun.
  destruct (cycle_decisions _ _ _ _ _ _ _ _ Hnd Hsend Hrun) as (_ & _ & Hlast).
  eexists _, _, _. split; [exact Hlast |].
  split; [done |]. split; [done |]. split; [done |].
  replace (length fs) with (length (names fs)) by apply length_fmap.
  apply (disjoint_filters_length
           (sent_as_new (collect (items r) []))
           (sent_to_replace fs (collect (items r) []))).
  intros f Hf. unfold sent_as_new in Hf. unfold sent_to_replace.
  destruct (truthy (dict_get f (collect (items r) []))); done.
Qed.

(** X3. Against an empty remote listing, a cycle that comes to its end
    requests one upload link with [overwrite=False] for every local file,
    deletes nothing and reports as many uploads as there are local files. *)
Theorem empty_listing_uploads_everything (w : W) (r : response) (w1 : W)
    (s' : state W) :
  NoDup (names fs) →
  send (get_info_request cloud) w = (Answer r, w1) →
  items r = [] →
  synchronization_body send fs path_on_pc cloud (initial w) = (Ok tt, s') →
  (∀ f, f ∈ names fs →
     invoked (load_request cloud f) (sent s') = 1%nat ∧
     invoked (reload_request cloud f) (sent s') = 0%nat) ∧
  (∀ k, invoked (delete_request cloud k) (sent s') = 0%nat) ∧
  last (journal s') = Some (Info (Summary (length fs) 0 0)).
Proof.
  intros Hnd Hsend Hempty Hrun.
  destruct (cycle_decisions _ _ _ _ _ _ _ _ Hnd Hsend Hrun)
    as (Hload & Hreload & Hlast).
  rewrite Hempty in Hload, Hreload, Hlast. simpl in Hload, Hreload, Hlast.
  split; [| split].
  - intros f Hf. by rewrite Hload, Hreload, !decide_True.
  - intros k.
    destruct (deletions_counted _ _ _ _ _ _ _ Hrun) as (ks & _ & Hcount & Hall).
    rewrite Hcount, (Hall eq_refl r w1 Hsend), Hempty.
    change (dict_keys (collect [] [])) with (@nil string).
    rewrite filter_nil. by rewrite decide_False by apply not_elem_of_nil.
  - rewrite Hlast, filter_all, filter_nothing. unfold names.
    by rewrite length_fmap.
Qed.

End Table.

(** X4. With an empty local folder, a cycle that comes to its end sends
    its listing request and then one deletion for each name of the
    listing, in the order of the listing, and nothing else; it reports as
    many deletions as the listing has names. *)
Theorem empty_folder_deletes_everything {W : Type}
    (send : request → W → outcome * W) (path_on_pc : string)
    (cloud : YandexCloud) (w : W) (r : response) (w1 : W) (s' : state W) :
  send (get_info_request cloud) w = (Answer r, w1) →
  synchronization_body send [] path_on_pc cloud (initial w) = (Ok tt, s') →
  sent s' =
    get_info_request cloud ::
      (delete_request cloud <$> dict_keys (collect (items r) [])) ∧
  last (journal s') =
    Some (Info (Summary 0 0 (length (dict_keys (collect (items r) []))))).
Proof.
  intros Hsend Hrun.
  apply body_ok_inv in Hrun
    as (r0 & w0 & d' & r' & s2 & del & s3 & Hsend0 & _ & Hf & Hs3 & -> & ->).
  simpl in Hsend0. rewrite Hsend in Hsend0. injection Hsend0 as <- <-.
  simpl in Hf. injection Hf as <- <- <-. simpl in Hs3.
  split; [done |].
  unfold logged. cbn [journal]. by rewrite last_snoc.
Qed.

(** ** The traffic of a cycle *)

Lemma stat_names (file : string) (fs : directory) :
  file ∈ names fs → ∃ e, stat file fs = Some e.
Proof.
  induction fs as [|e0 fs IH]; intros Hin.
  - by apply elem_of_nil in Hin.
  - simpl. destruct (decide (name e0 = file)) as [|Hne]; [by eexists |].
    unfold names in Hin. rewrite fmap_cons in Hin.
    apply elem_of_cons in Hin as [->|Hin]; [done | by apply IH].
Qed.

Lemma cycle_request_is_not_the_listing (fs : directory) (path : string)
    (cloud : YandexCloud) (q : request) :
  cycle_request fs path cloud q → q ≠ get_info_request cloud.
Proof.
  intros [(f & _ & [->|[->|[h ->]]])|(k & _ & ->)] Heq.
  - symmetry in Heq. exact (proj1 (get_info_is_not_a_link cloud f) Heq).
  - symmetry in Heq. exact (proj2 (get_info_is_not_a_link cloud f) Heq).
  - discriminate Heq.
  - discriminate Heq.
Qed.

Lemma cycle_request_token_kept (fs : directory) (path : string)
    (cloud : YandexCloud) (q : request) :
  cycle_request fs path cloud q → token_kept cloud q.
Proof.
  intros [(f & _ & [->|[->|[h ->]]])|(k & _ & ->)]; unfold token_kept;
    cbn [r_files r_headers r_method load_request reload_request
         put_file_request delete_request]; done.
Qed.

Section Traffic.
Context {W : Type}.
Variable send : request → W → outcome * W.
Variable fs : directory.
Variable path_on_pc : string.
Variable cloud : YandexCloud.

(** The requests of [__save], whatever comes of it, and the only way it
    raises [OSError]: the file does not open. *)
Lemma save_traffic (u file : string) (s s' : state W) (out : result unit) :
  save send fs cloud u path_on_pc file s = (out, s') →
  (∃ T, sent s' = sent s ++ Request GET u (Some (headers cloud)) None :: T ∧
        (T = [] ∨ ∃ h, T = [put_file_request h path_on_pc file])) ∧
  (out = Raise OSError → ∀ e, stat file fs = Some e → opens e = false).
Proof.
  unfold save, requests_get, requests_put_files. intros H.
  apply bind_inv in H as [(r & s1 & Hr & H)|(e & Hr & ->)];
    apply requests_inv in Hr as (o1 & w1 & _ & Hs1 & Ho1).
  2:{ subst s'. split; [exists []; split; [done | by left] |].
      destruct o1; [done |]. injection Ho1 as Ho1. by subst e. }
  subst s1. case_decide.
  - apply bind_inv in H as [([] & s2 & Ho & H)|(e & Ho & ->)];
      unfold open_rb in Ho.
    + destruct (stat file fs) as [en|]; [| done].
      destruct (opens en); [| done]. inversion Ho; subst s2.
      apply bind_inv in H as [(r2 & s3 & Hp & H)|(e & Hp & ->)];
        apply requests_inv in Hp as (o2 & w2 & _ & Hs & Ho2); simpl in Hs.
      * inversion H; subst. split; [| done].
        exists [put_file_request (href r) path_on_pc file].
        split; [simpl; by rewrite <- app_assoc | right; by eexists].
      * subst s'. split.
        -- exists [put_file_request (href r) path_on_pc file].
           split; [simpl; by rewrite <- app_assoc | right; by eexists].
        -- destruct o2; [done |]. injection Ho2 as Ho2. by subst e.
    + split.
      * exists []. split; [| by left].
        destruct (stat file fs) as [en|]; [destruct (opens en) |];
          inversion Ho; by subst.
      * intros _ en0 Hen0. rewrite Hen0 in Ho.
        destruct (opens en0); [done | done].
  - inversion H; subst. split; [exists []; split; [done | by left] | done].
Qed.

Lemma get_info_raises (s s' : state W) (e : exn) :
  get_info send cloud s = (Raise e, s') → e ≠ OSError.
Proof.
  unfold get_info, requests_get. intros H.
  apply bind_inv in H as [(r & s1 & Hr & H)|(e1 & Hr & Heq)];
    apply requests_inv in Hr as (o & w1 & _ & _ & Ho).
  - repeat case_decide; inversion H; done.
  - destruct o; [done |]. injection Ho as Ho. injection Heq as Heq. by subst.
Qed.

Lemma delete_raises (filename : string) (s s' : state W) (e : exn) :
  delete send cloud filename s = (Raise e, s') → e ≠ OSError.
Proof.
  unfold delete, requests_delete. intros H.
  apply bind_inv in H as [(r & s1 & Hr & H)|(e1 & Hr & Heq)];
    apply requests_inv in Hr as (o & w1 & _ & _ & Ho).
  - case_decide; inversion H; done.
  - destruct o; [done |]. injection Ho as Ho. injection Heq as Heq. by subst.
Qed.

Lemma for_keys_raises (keys : list string) (n : nat) (s s' : state W) (e : exn) :
  for_keys send cloud keys n s = (Raise e, s') → e ≠ OSError.
Proof.
  revert n s. induction keys as [|k keys IH]; intros n s H; simpl in H; [done |].
  apply bind_inv in H as [([] & s1 & Hd & H)|(e1 & Hd & Heq)].
  - apply bind_inv in H as [([] & s2 & Hlog & H)|(e1 & Hlog & _)]; [| done].
    by eapply IH.
  - injection Heq as Heq. subst e1. by eapply delete_raises.
Qed.

(** The loop over local names sends requests for these names only, and
    raises [OSError] only for a file that does not open. *)
Lemma for_files_traffic (listing : list string) (fc : dict) (d r : nat)
    (s s' : state W) (out : result (dict * nat * nat)) :
  (∀ f, f ∈ listing → f ∈ names fs) →
  for_files send fs path_on_pc cloud listing fc d r s = (out, s') →
  (∃ T, sent s' = sent s ++ T ∧ Forall (cycle_request fs path_on_pc cloud) T) ∧
  ((∀ e, e ∈ fs → opens e = true) → out ≠ Raise OSError).
Proof.
  revert fc d r s. induction listing as [|file rest IH]; intros fc d r s Hsub H.
  - inversion H. split; [| done]. exists []. by rewrite app_nil_r.
  - assert (Hfile : file ∈ names fs) by (apply Hsub; by left).
    assert (Hrest : ∀ f, f ∈ rest → f ∈ names fs)
      by (intros f Hf; apply Hsub; by right).
    destruct (stat_names _ _ Hfile) as [en Hstat].
    pose proof (stat_Some _ _ _ Hstat) as [Hen _].
    assert (Hblock : ∀ u (s0 s1 : state W) o,
      u = load_url cloud file ∨ u = reload_url cloud file →
      save send fs cloud u path_on_pc file s0 = (o, s1) →
      (∃ T, sent s1 = sent s0 ++ T ∧ Forall (cycle_request fs path_on_pc cloud) T) ∧
      ((∀ e, e ∈ fs → opens e = true) → o ≠ Raise OSError)).
    { intros u s0 s1 o Hu Hsave.
      apply save_traffic in Hsave as [(T & HT & HTs) Hos]. split.
      - eexists. split; [exact HT |]. apply Forall_cons. split.
        + left. exists file. split; [done |].
          destruct Hu as [->| ->]; [by left | by right; left].
        + destruct HTs as [->|[h ->]]; [done |].
          apply Forall_singleton. left. exists file. split; [done |].
          right. right. by exists h.
      - intros Hopen Ho. specialize (Hos Ho en Hstat).
        rewrite (Hopen en Hen) in Hos. done. }
    assert (Hjoin : ∀ (s0 s1 : state W) (T1 : list request) (o : Prop),
      sent s1 = sent s0 ++ T1 → Forall (cycle_request fs path_on_pc cloud) T1 →
      (∃ T, sent s' = sent s1 ++ T ∧ Forall (cycle_request fs path_on_pc cloud) T) ∧ o →
      (∃ T, sent s' = sent s0 ++ T ∧ Forall (cycle_request fs path_on_pc cloud) T) ∧ o).
    { intros s0 s1 T1 o H1 F1 [(T2 & H2 & F2) Ho]. split; [| done].
      exists (T1 ++ T2). split; [by rewrite H2, H1, app_assoc |].
      by apply Forall_app. }
    rewrite for_files_cons in H.
    apply bind_inv in H as [(m & s0 & Hm & H)|(e & Hm & _)];
      unfold getmtime in Hm; rewrite Hstat in Hm; [| done].
    inversion Hm; subst m s0.
    destruct (negb (truthy (dict_get file fc)));
      [| destruct (truthy (dict_get file fc) && newer (mtime en) (dict_get file fc))].
    + apply bind_inv in H as [([] & s1 & Hl & H)|(e & Hl & ->)].
      * apply (Hblock _ _ _ _ (or_introl eq_refl)) in Hl as [(T1 & H1 & F1) _].
        apply bind_inv in H as [([] & s2 & Hlog & H)|(e & Hlog & _)];
          inversion Hlog; subst s2.
        apply (Hjoin s (logged s1 (FileSaved file)) T1); [done | done |].
        by apply IH in H.
      * apply (Hblock _ _ _ _ (or_introl eq_refl)) in Hl as [Htr Hos].
        split; [done |]. intros Hopen [= ->]. by apply Hos.
    + apply bind_inv in H as [([] & s1 & Hl & H)|(e & Hl & ->)].
      * apply (Hblock _ _ _ _ (or_intror eq_refl)) in Hl as [(T1 & H1 & F1) _].
        apply bind_inv in H as [([] & s2 & Hlog & H)|(e & Hlog & _)];
          inversion Hlog; subst s2.
        apply (Hjoin s (logged s1 (FileRewritten file)) T1); [done | done |].
        by apply IH in H.
      * apply (Hblock _ _ _ _ (or_intror eq_refl)) in Hl as [Htr Hos].
        split; [done |]. intros Hopen [= ->]. by apply Hos.
    + by apply IH in H.
Qed.

(** The requests of a cycle, whatever comes of it: the listing request,
    then requests about local names and deletions of names that are not
    local.  A cycle raises [OSError] only for a file that does not open. *)
Lemma body_traffic (s s' : state W) (out : result unit) :
  synchronization_body send fs path_on_pc cloud s = (out, s') →
  (∃ T, sent s' = sent s ++ get_info_request cloud :: T ∧
        Forall (cycle_request fs path_on_pc cloud) T) ∧
  ((∀ e, e ∈ fs → opens e = true) → out ≠ Raise OSError).
Proof.
  unfold synchronization_body. intros H.
  apply bind_inv in H as [(fc & s1 & Hg & H)|(e & Hg & ->)].
  2:{ pose proof (get_info_raises _ _ _ Hg) as Hne.
      apply get_info_inv in Hg as (o & w1 & _ & -> & _).
      split; [by exists [] |]. intros _ [= ->]. done. }
  apply get_info_inv in Hg as (o & w1 & Hsend & Hs1 & Hfc).
  destruct (Hfc fc eq_refl) as (r & -> & H200 & ->).
  assert (Hnd : NoDup (dict_keys (collect (items r) []))).
  { apply collect_NoDup, NoDup_nil_2. }
  apply bind_inv in H as [([[fc' d'] r'] & s2 & Hf & H)|(e & Hf & ->)].
  2:{ apply for_files_traffic in Hf as [(T & HT & HF) Hos]; [| done].
      split; [| intros Hopen [= ->]; by apply Hos].
      exists T. rewrite HT, Hs1. simpl. by rewrite <- app_assoc. }
  pose proof (for_files_dict _ _ _ _ _ _ _ _ _ _ _ _ _ Hf) as ->.
  apply for_files_traffic in Hf as [(T & HT & HF) _]; [| done].
  assert (Hdel : ∀ ks rest,
    dict_keys (pops (names fs) (collect (items r) [])) = ks ++ rest →
    Forall (cycle_request fs path_on_pc cloud) (delete_request cloud <$> ks)).
  { intros ks rest Hks. apply Forall_fmap, Forall_forall. intros k Hk.
    right. exists k. split; [| done].
    assert (Hin : k ∈ dict_keys (pops (names fs) (collect (items r) [])))
      by (rewrite Hks; apply elem_of_app; by left).
    rewrite pops_keys in Hin by done.
    apply list_elem_of_filter in Hin. tauto. }
  apply bind_inv in H as [(del & s3 & Hk & H)|(e & Hk & ->)].
  - inversion H; subst s' out. split; [| done]. simpl.
    case_decide as Hlen.
    + apply for_keys_sent in Hk as (ks & [rest Hpre] & Hsent & _).
      exists (T ++ (delete_request cloud <$> ks)).
      rewrite Hsent, HT, Hs1. simpl. rewrite <- !app_assoc.
      split; [done |]. apply Forall_app. split; [done | by eapply Hdel].
    + unfold ret in Hk. injection Hk as <- <-. exists T.
      rewrite HT, Hs1. simpl. by rewrite <- app_assoc.
  - case_decide as Hlen; [| done].
    pose proof (for_keys_raises _ _ _ _ _ Hk) as Hne.
    apply for_keys_sent in Hk as (ks & [rest Hpre] & Hsent & _).
    split; [| intros _ [= ->]; done].
    exists (T ++ (delete_request cloud <$> ks)).
    rewrite Hsent, HT, Hs1. simpl. rewrite <- !app_assoc.
    split; [done |]. apply Forall_app. split; [done | by eapply Hdel].
Qed.

(** X5. Whatever comes of a cycle, its first request is the listing
    request, which it sends once; every later request is a request for an
    upload link or a transfer for a local name, or the deletion of a name
    that is not local.  In particular a cycle never creates or checks the
    remote folder and never deletes a file it has locally. *)
Theorem cycle_traffic (w : W) :
  ∃ T,
    sent (synchronization_body send fs path_on_pc cloud (initial w)).2
    = get_info_request cloud :: T ∧
    Forall (cycle_request fs path_on_pc cloud) T ∧
    get_info_request cloud ∉ T.
Proof.
  destruct (synchronization_body send fs path_on_pc cloud (initial w))
    as [out s'] eqn:Hrun.
  apply body_traffic in Hrun as [(T & HT & HF) _].
  exists T. split; [done |]. split; [done |].
  intros Hin. rewrite Forall_forall in HF.
  by apply HF, cycle_request_is_not_the_listing in Hin.
Qed.

(** X6. Whatever comes of a cycle, every request it sends to the API
    carries the headers of the client, token included, and every transfer
    to an upload link is a PUT that carries no header: the token never
    goes to the host of the link. *)
Theorem token_goes_to_the_api_only (w : W) :
  Forall (token_kept cloud)
    (sent (synchronization_body send fs path_on_pc cloud (initial w)).2).
Proof.
  destruct (synchronization_body send fs path_on_pc cloud (initial w))
    as [out s'] eqn:Hrun.
  apply body_traffic in Hrun as [(T & HT & HF) _].
  simpl in *. rewrite HT. apply Forall_cons. split; [done |].
  eapply Forall_impl; [exact HF |].
  intros q. apply cycle_request_token_kept.
Qed.

(** X7. Whatever comes of a cycle, its deletions are its last requests:
    the requests sent split in two, none of the first part a deletion and
    all of the second part deletions of distinct names. *)
Theorem deletions_come_last (w : W) :
  ∃ A ks,
    sent (synchronization_body send fs path_on_pc cloud (initial w)).2
    = A ++ (delete_request cloud <$> ks) ∧
    Forall not_a_deletion A ∧ NoDup ks.
Proof.
  destruct (synchronization_body send fs path_on_pc cloud (initial w))
    as [out s'] eqn:Hrun.
  apply body_sent in Hrun as (T & ks & Hsent & HT & Hnd & _).
  exists (get_info_request cloud :: T), ks.
  split; [done |]. split; [| done].
  apply Forall_cons. split; [done | done].
Qed.

End Traffic.

(** ** The loop and its handler *)

Section Loop.
Context {W : Type}.
Variable send : request → W → outcome * W.
Variable fs : directory.
Variable path_on_pc : string.
Variable cloud : YandexCloud.





(** X10. An exception the handler does not catch ends the loop in the
    round that raises it: when a cycle raises [OSError], the loop raises it
    too and no later round runs. *)
Theorem unhandled_error_ends_the_loop_at_once (n : nat) (s s1 : state W) :
  synchronization_body send fs path_on_pc cloud (logged s Started)
    = (Raise OSError, s1) →
  main_loop send fs (S n) path_on_pc cloud s = (Raise OSError, s1).
Proof.
  intros Hbody. simpl. unfold bind at 1. unfold logger_info at 1.
  fold (logged s Started). unfold bind at 1.
  unfold synchronization, exception_decorator. by rewrite Hbody.
Qed.

End Loop.

(** X11. The check of the remote folder at the start of the program is
    not under the handler: when it gets no connection, or when the folder
    is missing and its creation is not answered with status 201, the
    exception leaves [main] before any round of the loop, and nothing is
    logged. *)
Theorem startup_failure_is_not_handled {W : Type}
    (send : request → W → outcome * W) (fs : directory) (n : nat)
    (token path name_folder_cloud : string) (s : state W) :
  let yandex := YandexCloud_init token name_folder_cloud in
  (∀ w1, send (check_exists_request yandex) (world s) = (NoConnection, w1) →
     main_after_checks send fs n token path name_folder_cloud s =
       (Raise ConnectionError,
        State w1 (sent s ++ [check_exists_request yandex]) (journal s))) ∧
  (∀ r w1 r2 w2,
     send (check_exists_request yandex) (world s) = (Answer r, w1) →
     status_code r = 404 →
     send (create_folder_request yandex) w1 = (Answer r2, w2) →
     status_code r2 ≠ 201 →
     main_after_checks send fs n token path name_folder_cloud s =
       (Raise (CloudException (Some ("Ошибка: " +:+ fmt (message r2)))),
        State w2
          (sent s ++ [check_exists_request yandex; create_folder_request yandex])
          (journal s))).
Proof.
  intros yandex. split.
  - intros w1 Hsend.
    unfold main_after_checks, check_exists_folder_cloud, requests_get.
    fold yandex. fold (check_exists_request yandex).
    unfold bind, requests. by rewrite Hsend.
  - intros r w1 r2 w2 Hcheck H404 Hcreate H201.
    unfold main_after_checks, check_exists_folder_cloud, requests_get.
    fold yandex. fold (check_exists_request yandex).
    unfold bind at 1. unfold bind at 1.
    rewrite (requests_answer _ _ _ _ _ Hcheck).
    rewrite decide_True by done.
    unfold create_folder_cloud, requests_put, bind.
    fold (create_folder_request yandex).
    rewrite (requests_answer_at _ _ _ _ _ _ _ Hcreate).
    rewrite decide_True by done. by rewrite <- app_assoc.
Qed.

(** ** The listing with a name twice *)

Lemma collect_app (its1 its2 : list item) (d : dict) :
  collect (its1 ++ its2) d = collect its2 (collect its1 d).
Proof.
  revert d. induction its1 as [|it its1 IH]; intros d; [done |].
  simpl. apply IH.
Qed.

(** X12. When the listing answered with status 200 names a file more than
    once, [get_info] keeps the date of the last item with that name. *)
Theorem listing_duplicates_keep_the_last_date {W : Type}
    (send : request → W → outcome * W) (cloud : YandexCloud) (s : state W)
    (r : response) (w1 : W) (its1 its2 : list item) (it : item) :
  send (get_info_request cloud) (world s) = (Answer r, w1) →
  status_code r = 200 →
  items r = its1 ++ it :: its2 →
  item_name it ∉ item_name <$> its2 →
  ∃ files, (get_info send cloud s).1 = Ok files ∧
           dict_get (item_name it) files = Some (item_modified it).
Proof.
  intros Hsend H200 Hitems Hlast.
  unfold get_info, requests_get, bind. fold (get_info_request cloud).
  rewrite (requests_answer _ _ _ _ _ Hsend), decide_True by done.
  eexists. split; [reflexivity |].
  rewrite Hitems, collect_app. simpl.
  rewrite collect_other by done. rewrite dict_get_set. by rewrite decide_True.
Qed.

(** ** The parameters of the upload links *)

Lemma upto_amp_app (s t : string) :
  no_sep s = true → upto_amp (s +:+ String amp t) = s.
Proof.
  induction s as [|a s IH]; str_simpl; simpl.
  - intros _. reflexivity.
  - destruct (decide (a = qmark ∨ a = amp)) as [|Hno]; [done |].
    intros Hs. rewrite decide_False by (intros ->; apply Hno; by right).
    by rewrite IH.
Qed.

(** X13. For a folder name and a file name without [?] and [&], the two
    upload link requests name the same path, the folder then the file,
    and differ by their [overwrite] parameter: [False] for [load],
    [True] for [reload]. *)
Theorem upload_link_parameters (self : YandexCloud) (file_name : string) :
  no_sep (name_folder_cloud self) = true → no_sep file_name = true →
  query_value "path" (load_url self file_name)
    = Some (name_folder_cloud self +:+ "/" +:+ file_name) ∧
  query_value "path" (reload_url self file_name)
    = Some (name_folder_cloud self +:+ "/" +:+ file_name) ∧
  query_value "overwrite" (load_url self file_name) = Some "False" ∧
  query_value "overwrite" (reload_url self file_name) = Some "True".
Proof.
  intros Hfolder Hfile. unfold load_url, reload_url.
  assert (Hsplit : ∀ rest,
    url +:+ "/upload?path=" +:+ name_folder_cloud self +:+ "/" +:+ file_name
        +:+ rest
    = (url +:+ "/upload") +:+
      String qmark (("path=" +:+ name_folder_cloud self +:+ "/" +:+ file_name)
                      +:+ rest)).
  { intros rest. rewrite !app_assoc_str. reflexivity. }
  assert (Hhead : no_sep (url +:+ "/upload") = true) by reflexivity.
  assert (Hmid : no_sep ("path=" +:+ name_folder_cloud self +:+ "/" +:+ file_name)
                 = true).
  { rewrite !no_sep_app, Hfolder, Hfile. reflexivity. }
  assert (Hname : no_sep (name_folder_cloud self +:+ "/" +:+ file_name) = true).
  { rewrite !no_sep_app, Hfolder, Hfile. reflexivity. }
  assert (Hpath : ∀ rest,
    query_value "path"
      (String qmark (("path=" +:+ name_folder_cloud self +:+ "/" +:+ file_name)
                       +:+ String amp rest))
    = Some (name_folder_cloud self +:+ "/" +:+ file_name)).
  { intros rest. rewrite app_assoc_str.
    change (query_value "path" (String qmark ("path=" +:+ ?x)))
      with (Some (upto_amp x)).
    rewrite <- !app_assoc_str, upto_amp_app by (by rewrite !app_assoc_str).
    by rewrite !app_assoc_str. }
  assert (Hflag : ∀ v,
    query_value "overwrite"
      (String qmark (("path=" +:+ name_folder_cloud self +:+ "/" +:+ file_name)
                       +:+ String amp ("overwrite=" +:+ v)))
    = Some (upto_amp v)).
  { intros v.
    change (query_value "overwrite" (String qmark ?x))
      with (query_value "overwrite" x).
    rewrite (query_value_skip _ _ _ Hmid). reflexivity. }
  rewrite !Hsplit, !(query_value_skip _ _ _ Hhead).
  split; [apply Hpath |]. split; [apply Hpath |].
  split; [apply (Hflag "False") | apply (Hflag "True")].
Qed.

(** ** The failures of an upload *)

(** X14. The ways [__save] fails.  A link request that gets no connection
    raises [ConnectionError]; one answered with a status other than 200
    raises [CloudException] with the file name and the message of the
    answer ([None] when there is none), and in both cases the file is not
    opened and nothing is transferred.  With the link granted, a file that
    does not open raises [OSError] before any transfer, and a transfer
    that gets no connection raises [ConnectionError]. *)
Theorem save_failures {W : Type} (send : request → W → outcome * W)
    (fs : directory) (self : YandexCloud) (u path file_name : string)
    (s : state W) :
  let link := Request GET u (Some (headers self)) None in
  (∀ w1, send link (world s) = (NoConnection, w1) →
     save send fs self u path file_name s =
       (Raise ConnectionError, State w1 (sent s ++ [link]) (journal s))) ∧
  (∀ r w1, send link (world s) = (Answer r, w1) → status_code r ≠ 200 →
     save send fs self u path file_name s =
       (Raise (CloudException
                 (Some ("Файл: " +:+ file_name +:+ ", Ошибка: "
                          +:+ fmt (message r)))),
        State w1 (sent s ++ [link]) (journal s))) ∧
  (∀ r w1, send link (world s) = (Answer r, w1) → status_code r = 200 →
     (∀ e, stat file_name fs = Some e → opens e = false) →
     save send fs self u path file_name s =
       (Raise OSError, State w1 (sent s ++ [link]) (journal s))) ∧
  (∀ r w1 e w2, send link (world s) = (Answer r, w1) → status_code r = 200 →
     stat file_name fs = Some e → opens e = true →
     send (put_file_request (href r) path file_name) w1 = (NoConnection, w2) →
     save send fs self u path file_name s =
       (Raise ConnectionError,
        State w2 (sent s ++ [link; put_file_request (href r) path file_name])
          (journal s))).
Proof.
  intros link. unfold save, requests_get. fold link.
  split; [| split; [| split]].
  - intros w1 Hsend. unfold bind, requests. by rewrite Hsend.
  - intros r w1 Hsend Hst. unfold bind.
    rewrite (requests_answer _ _ _ _ _ Hsend). by rewrite decide_False.
  - intros r w1 Hsend Hst Hopen. unfold bind at 1.
    rewrite (requests_answer _ _ _ _ _ Hsend), decide_True by done.
    unfold bind, open_rb.
    destruct (stat file_name fs) as [e|] eqn:Hstat; [| done].
    by rewrite (Hopen e eq_refl).
  - intros r w1 e w2 Hsend Hst Hstat Hopen Hput. unfold bind at 1.
    rewrite (requests_answer _ _ _ _ _ Hsend), decide_True by done.
    unfold bind at 1. rewrite (open_rb_ok _ _ _ _ Hstat Hopen).
    unfold requests_put_files, bind, requests.
    fold (put_file_request (href r) path file_name). cbn [world].
    rewrite Hput. cbn [sent journal]. by rewrite <- app_assoc.
Qed.

(** ** The lines of the log *)


Section Journal.
Context {W : Type}.
Variable send : request → W → outcome * W.
Variable fs : directory.
Variable path_on_pc : string.
Variable cloud : YandexCloud.





End Journal.

(** ** The properties above at work *)

(** The decision table on three files: [a.txt] is older in the cloud,
    [b.txt] is not there, [c.txt] has the same date on both sides. *)
Lemma cycle_decision_table_witness :
  invoked (reload_request my_cloud "a.txt")
    (sent (my_cycle 150 false (two_files ++ [Entry "c.txt" 10 true])
             [("a.txt", 50); ("c.txt", 10)]).2) = 1%nat ∧
  invoked (load_request my_cloud "b.txt")
    (sent (my_cycle 150 false (two_files ++ [Entry "c.txt" 10 true])
             [("a.txt", 50); ("c.txt", 10)]).2) = 1%nat ∧
  invoked (reload_request my_cloud "c.txt")
    (sent (my_cycle 150 false (two_files ++ [Entry "c.txt" 10 true])
             [("a.txt", 50); ("c.txt", 10)]).2) = 0%nat ∧
  invoked (load_request my_cloud "old.txt")
    (sent (my_cycle 150 false (two_files ++ [Entry "c.txt" 10 true])
             [("a.txt", 50); ("c.txt", 10)]).2) = 0%nat.
Proof.
  destruct (cycle_decision_table (my_send 150 false)
              (two_files ++ [Entry "c.txt" 10 true]) my_path my_cloud
              (my_disk [("a.txt", 50); ("c.txt", 10)])
              (Response 200 None ""
                 (disk_items (my_disk [("a.txt", 50); ("c.txt", 10)])))
              (my_disk [("a.txt", 50); ("c.txt", 10)])
              (my_cycle 150 false (two_files ++ [Entry "c.txt" 10 true])
                 [("a.txt", 50); ("c.txt", 10)]).2)
    as (Hlocal & Hother).
  - by_computation.
  - vm_compute. reflexivity.
  - vm_compute. reflexivity.
  - split; [| split; [| split]].
    + destruct (Hlocal (Entry "a.txt" 100 true)) as (_ & Holder & _);
        [by_computation |].
      destruct (Holder 50) as [_ H]; [vm_compute; reflexivity | lia | simpl; lia |].
      exact H.
    + destruct (Hlocal (Entry "b.txt" 120 true)) as (Habsent & _);
        [by_computation |].
      destruct Habsent as [H _]; [vm_compute; reflexivity |]. exact H.
    + destruct (Hlocal (Entry "c.txt" 10 true)) as (_ & _ & Hsame);
        [by_computation |].
      destruct (Hsame 10) as [_ H]; [vm_compute; reflexivity | lia | simpl; lia |].
      exact H.
    + destruct (Hother "old.txt") as [H _]; [by_computation |]. exact H.
Defined.

(** The summary of a cycle that uploads [b.txt], overwrites [a.txt] and
    deletes [old.txt]. *)
Lemma summary_counts_witness :
  last (journal (my_cycle 150 false two_files [("a.txt", 50); ("old.txt", 10)]).2)
  = Some (Info (Summary 1 1 1)).
Proof.
  destruct (summary_counts (my_send 150 false) two_files my_path my_cloud
              (my_disk [("a.txt", 50); ("old.txt", 10)])
              (Response 200 None ""
                 (disk_items (my_disk [("a.txt", 50); ("old.txt", 10)])))
              (my_disk [("a.txt", 50); ("old.txt", 10)])
              (my_cycle 150 false two_files [("a.txt", 50); ("old.txt", 10)]).2)
    as (u & o & d & Hlast & -> & -> & -> & _).
  - by_computation.
  - vm_compute. reflexivity.
  - vm_compute. reflexivity.
  - rewrite Hlast. vm_compute. reflexivity.
Defined.

(** The first cycle on an empty remote folder. *)
Lemma empty_listing_uploads_everything_witness :
  invoked (load_request my_cloud "b.txt")
    (sent (my_cycle 150 false two_files []).2) = 1%nat ∧
  last (journal (my_cycle 150 false two_files []).2)
  = Some (Info (Summary 2 0 0)).
Proof.
  destruct (empty_listing_uploads_everything (my_send 150 false) two_files
              my_path my_cloud (my_disk [])
              (Response 200 None "" (disk_items (my_disk [])))
              (my_disk []) (my_cycle 150 false two_files []).2)
    as (Hload & _ & Hlast).
  - by_computation.
  - vm_compute. reflexivity.
  - vm_compute. reflexivity.
  - vm_compute. reflexivity.
  - split; [| exact Hlast].
    destruct (Hload "b.txt") as [H _]; [by_computation |]. exact H.
Defined.

(** An empty local folder: the two remote files are deleted in the order
    of the listing. *)
Lemma empty_folder_deletes_everything_witness :
  sent (scripted_cycle []
          [listing_answer [Item "old.txt" 10; Item "gone.txt" 20];
           Answer (reply 204 None); Answer (reply 204 None)]).2
  = [get_info_request my_cloud; delete_request my_cloud "old.txt";
     delete_request my_cloud "gone.txt"] ∧
  last (journal (scripted_cycle []
                   [listing_answer [Item "old.txt" 10; Item "gone.txt" 20];
                    Answer (reply 204 None); Answer (reply 204 None)]).2)
  = Some (Info (Summary 0 0 2)).
Proof.
  apply (empty_folder_deletes_everything script_send my_path my_cloud
           [listing_answer [Item "old.txt" 10; Item "gone.txt" 20];
            Answer (reply 204 None); Answer (reply 204 None)]
           (Response 200 None "" [Item "old.txt" 10; Item "gone.txt" 20])
           [Answer (reply 204 None); Answer (reply 204 None)]).
  - reflexivity.
  - vm_compute. reflexivity.
Defined.


(** A file that cannot be opened ends the loop in its first round,
    however many rounds were to come. *)
Lemma unhandled_error_ends_the_loop_at_once_witness :
  main_loop script_send [Entry "a.txt" 100 false] 5 my_path my_cloud
    (initial [listing_answer []; link_answer; listing_answer []])
  = (Raise OSError,
     State [listing_answer []]
       [get_info_request my_cloud; load_request my_cloud "a.txt"]
       [Info Started]).
Proof.
  apply (unhandled_error_ends_the_loop_at_once script_send
           [Entry "a.txt" 100 false] my_path my_cloud 4
           (initial [listing_answer []; link_answer; listing_answer []])).
  vm_compute. reflexivity.
Defined.

(** No network at the start, and a folder that cannot be created. *)
Lemma startup_failure_is_not_handled_witness :
  main_after_checks script_send two_files 3 "secret" my_path "backup"
    (initial [])
  = (Raise ConnectionError,
     State [] [check_exists_request my_cloud] []) ∧
  main_after_checks script_send two_files 3 "secret" my_path "backup"
    (initial [Answer (reply 404 (Some "Not Found"));
              Answer (reply 507 (Some "Insufficient Storage"));
              listing_answer []])
  = (Raise (CloudException (Some "Ошибка: Insufficient Storage")),
     State [listing_answer []]
       [check_exists_request my_cloud; create_folder_request my_cloud] []).
Proof.
  split.
  - destruct (startup_failure_is_not_handled script_send two_files 3 "secret"
                my_path "backup" (initial []))
      as [Hcut _].
    apply Hcut. reflexivity.
  - destruct (startup_failure_is_not_handled script_send two_files 3 "secret"
                my_path "backup"
                (initial [Answer (reply 404 (Some "Not Found"));
                          Answer (reply 507 (Some "Insufficient Storage"));
                          listing_answer []]))
      as [_ Hrefused].
    apply (Hrefused (reply 404 (Some "Not Found"))
             [Answer (reply 507 (Some "Insufficient Storage")); listing_answer []]
             (reply 507 (Some "Insufficient Storage")) [listing_answer []]);
      [reflexivity | reflexivity | reflexivity | simpl; lia].
Defined.

(** A listing that names [a.txt] twice. *)
Lemma listing_duplicates_keep_the_last_date_witness :
  ∃ files,
    (get_info script_send my_cloud
       (initial [listing_answer [Item "a.txt" 10; Item "b.txt" 5;
                                 Item "a.txt" 20]])).1 = Ok files ∧
    dict_get "a.txt" files = Some 20.
Proof.
  apply (listing_duplicates_keep_the_last_date script_send my_cloud
           (initial [listing_answer [Item "a.txt" 10; Item "b.txt" 5;
                                     Item "a.txt" 20]])
           (Response 200 None "" [Item "a.txt" 10; Item "b.txt" 5; Item "a.txt" 20])
           [] [Item "a.txt" 10; Item "b.txt" 5] [] (Item "a.txt" 20)).
  - reflexivity.
  - reflexivity.
  - reflexivity.
  - apply not_elem_of_nil.
Defined.

(** The links asked for [a.txt] in the folder [backup]. *)
Lemma upload_link_parameters_witness :
  query_value "path" (load_url my_cloud "a.txt") = Some "backup/a.txt" ∧
  query_value "path" (reload_url my_cloud "a.txt") = Some "backup/a.txt" ∧
  query_value "overwrite" (load_url my_cloud "a.txt") = Some "False" ∧
  query_value "overwrite" (reload_url my_cloud "a.txt") = Some "True".
Proof.
  apply (upload_link_parameters my_cloud "a.txt"); vm_compute; reflexivity.
Defined.

(** An upload link that is refused, and a transfer that is cut. *)
Lemma save_failures_witness :
  save script_send (one_file 100) my_cloud (load_url my_cloud "a.txt")
    my_path "a.txt" (initial [Answer (reply 409 (Some "Conflict")); link_answer])
  = (Raise (CloudException (Some "Файл: a.txt, Ошибка: Conflict")),
     State [link_answer] [load_request my_cloud "a.txt"] []) ∧
  save script_send [Entry "a.txt" 100 false] my_cloud (load_url my_cloud "a.txt")
    my_path "a.txt" (initial [link_answer; link_answer])
  = (Raise OSError,
     State [link_answer] [load_request my_cloud "a.txt"] []).
Proof.
  split.
  - destruct (save_failures script_send (one_file 100) my_cloud
                (load_url my_cloud "a.txt") my_path "a.txt"
                (initial [Answer (reply 409 (Some "Conflict")); link_answer]))
      as (_ & Hrefused & _).
    apply (Hrefused (reply 409 (Some "Conflict")) [link_answer]);
      [reflexivity | simpl; lia].
  - destruct (save_failures script_send [Entry "a.txt" 100 false] my_cloud
                (load_url my_cloud "a.txt") my_path "a.txt"
                (initial [link_answer; link_answer]))
      as (_ & _ & Hclosed & _).
    apply (Hclosed (Response 200 None "https://uploader.yandex.net/1" [])
             [link_answer]); [reflexivity | reflexivity |].
    intros e He. vm_compute in He. by injection He as <-.
Defined.

